(** * RepoInfo: the build/repository metadata example of repo-hooks

    A shallow embedding of [scripts/examples/RepoInfo.cc]: the eight
    [static const std::string] members of [struct RepoInfo], their
    out-of-class definitions, and [main], which streams them to
    [std::cout].  Objects with static storage duration live in a finite
    map keyed by qualified name.  [std::cout] is a record holding the
    bytes that reached the device and the stream's state bits; the
    stream functions follow the library's own code ([ostream::sentry],
    [__ostream_insert], [ostream::put], [ostream::flush], [std::endl]),
    and the device behind the stream can take part of what it is given,
    end the process with a signal, or never come back. *)

From Stdlib Require Import ZArith String Ascii List Bool Lia.
From stdpp Require Import gmap strings list fin_maps pretty.

Set Default Proof Using "Type".

(** ** The standard library pieces the program uses *)

Module Cxx.

(** What the device behind the stream does with the bytes it is handed:
    [n] of them go out, and then the call returns, or a signal ends the
    process (a closed pipe raises SIGPIPE), or the call never returns. *)
Inductive response : Type :=
  | Took (n : nat)
  | Signal (n : nat)
  | Hang (n : nat).

(** How a call into the library leaves the process. *)
Inductive fate : Type :=
  | Alive
  | Signalled
  | Hung.

(** [std::ostream], as far as the insertion of a string and [std::endl]
    see it: the bytes that reached the device, the three bits of
    [rdstate()], and the device, which answers from what it already
    holds and what it is handed.  The stream buffer keeps nothing back:
    what [sputn] and [sputc] are given goes to the device at once.
    The field width and the fill character are left out: nothing in the
    translation unit sets them, so [width()] is [0] whenever [main]
    runs. *)
Record ostream : Type := Ostream {
  written : string;
  badbit : bool;
  failbit : bool;
  eofbit : bool;
  device : string → string → response
}.

(** [ios::good()] *)
Definition good (os : ostream) : bool :=
  negb (badbit os || failbit os || eofbit os).

(** [setstate(ios_base::badbit)] and [setstate(ios_base::failbit)], with
    the default exception mask. *)
Definition setstate_badbit (os : ostream) : ostream :=
  Ostream (written os) true (failbit os) (eofbit os) (device os).

Definition setstate_failbit (os : ostream) : ostream :=
  Ostream (written os) (badbit os) true (eofbit os) (device os).

(** [ostream::sentry::sentry]: [std::cout] is tied to no stream; the
    sentry is ok on a good stream, and on a bad one it sets [failbit]. *)
Definition sentry (os : ostream) : bool * ostream :=
  if good os then (true, os)
  else if badbit os then (false, setstate_failbit os)
  else (false, os).

(** The first [n] bytes of a text. *)
Fixpoint first_bytes (n : nat) (s : string) : string :=
  match n, s with
  | S n', String c s' => String c (first_bytes n' s')
  | _, _ => EmptyString
  end.

Definition taken (r : response) : nat :=
  match r with
  | Took n | Signal n | Hang n => n
  end.

Definition fate_of (r : response) : fate :=
  match r with
  | Took _ => Alive
  | Signal _ => Signalled
  | Hang _ => Hung
  end.

(** [streambuf::sputn]: the number of bytes put.  Nothing is asked of
    the device for an empty sequence. *)
Definition sputn (chunk : string) (os : ostream) : nat * ostream * fate :=
  match chunk with
  | EmptyString => (0, os, Alive)
  | String _ _ =>
      let r := device os (written os) chunk in
      let n := Nat.min (taken r) (String.length chunk) in
      (n,
       Ostream (written os +:+ first_bytes n chunk)
               (badbit os) (failbit os) (eofbit os) (device os),
       fate_of r)
  end.

(** [__ostream_write]: [badbit] when fewer bytes were put than asked. *)
Definition ostream_write (chunk : string) (os : ostream) : ostream * fate :=
  let '(n, os', f) := sputn chunk os in
  match f with
  | Alive => (if n =? String.length chunk then os' else setstate_badbit os', Alive)
  | _ => (os', f)
  end.

(** [__ostream_insert], which is [operator<<] for a [std::string], with
    [width()] at [0]. *)
Definition ostream_insert (s : string) (os : ostream) : ostream * fate :=
  let '(ok, os1) := sentry os in
  if ok then ostream_write s os1 else (os1, Alive).

(** [ostream::put]: [badbit] when [sputc] returns [eof]. *)
Definition put (c : ascii) (os : ostream) : ostream * fate :=
  let '(ok, os1) := sentry os in
  if ok then
    let '(n, os2, f) := sputn (String c EmptyString) os1 in
    match f with
    | Alive => (if n =? 0 then setstate_badbit os2 else os2, Alive)
    | _ => (os2, f)
    end
  else (os1, Alive).

(** [ostream::flush]: the sentry, then [pubsync], which has nothing
    left to hand over. *)
Definition flush (os : ostream) : ostream * fate :=
  let '(_, os1) := sentry os in (os1, Alive).

Definition newline : string := String (ascii_of_nat 10) EmptyString.

(** [std::endl]: [flush(os.put('\n'))]. *)
Definition endl (os : ostream) : ostream * fate :=
  match put (ascii_of_nat 10) os with
  | (os1, Alive) => flush os1
  | other => other
  end.

(** Program state: the objects with static storage duration, the order
    in which they were initialised, and [std::cout]. *)
Record state : Type := State {
  statics : gmap string string;
  inits : list string;
  cout : ostream
}.

(** How a computation ends: it returns a value, the process is ended by
    a signal, it is stuck in a call for ever, or it read an object whose
    initialisation has not run. *)
Inductive outcome (A : Type) : Type :=
  | Returned (x : A) (st : state)
  | Killed (st : state)
  | Blocked (st : state)
  | Undefined.

Arguments Returned {A} x st.
Arguments Killed {A} st.
Arguments Blocked {A} st.
Arguments Undefined {A}.

Definition M (A : Type) : Type := state → outcome A.

#[export] Instance M_ret : MRet M := λ A x st, Returned x st.

#[export] Instance M_bind : MBind M := λ A B f m st,
  match m st with
  | Returned x st' => f x st'
  | Killed st' => Killed st'
  | Blocked st' => Blocked st'
  | Undefined => Undefined
  end.

(** The state a computation stopped in, and the value it returned. *)
Definition stopped {A : Type} (o : outcome A) : option state :=
  match o with
  | Returned _ st | Killed st | Blocked st => Some st
  | Undefined => None
  end.

Definition value {A : Type} (o : outcome A) : option A :=
  match o with
  | Returned x _ => Some x
  | _ => None
  end.

(** A call on [std::cout]. *)
Definition on_cout (f : ostream → ostream * fate) : M unit := λ st,
  match f (cout st) with
  | (os, Alive) => Returned tt (State (statics st) (inits st) os)
  | (os, Signalled) => Killed (State (statics st) (inits st) os)
  | (os, Hung) => Blocked (State (statics st) (inits st) os)
  end.

(** [std::cout << s] for a [std::string]. *)
Definition cout_insert (s : string) : M unit := on_cout (ostream_insert s).

(** [std::cout << std::endl] *)
Definition cout_endl : M unit := on_cout endl.

(** Reading a namespace-scope or static-member object. *)
Definition load (name : string) : M string := λ st,
  match statics st !! name with
  | Some v => Returned v st
  | None => Undefined
  end.

(** Dynamic initialisation of one object from its initialiser. *)
Definition define (name value : string) : M unit := λ st,
  Returned tt (State (<[name := value]> (statics st)) (inits st ++ [name]) (cout st)).

(** The lines of a text: every newline ends a line. *)
Fixpoint lines_from (cur : string) (s : string) : list string :=
  match s with
  | EmptyString => if decide (cur = EmptyString) then [] else [cur]
  | String c s' =>
      if decide (c = ascii_of_nat 10)
      then cur :: lines_from EmptyString s'
      else lines_from (cur +:+ String c EmptyString) s'
  end.

Definition lines (s : string) : list string := lines_from EmptyString s.

(** The device took the whole chunk and the call came back. *)
Definition whole (r : response) (chunk : string) : bool :=
  match chunk, r with
  | EmptyString, _ => true
  | String _ _, Took n => String.length chunk <=? n
  | String _ _, _ => false
  end.

(** A device that takes everything it is handed. *)
Definition accepting (dev : string → string → response) : Prop :=
  ∀ w c, whole (dev w c) c = true.

(** A device that raises no signal and always comes back. *)
Definition calm (dev : string → string → response) : Prop :=
  ∀ w c, fate_of (dev w c) = Alive.

End Cxx.
Export Cxx.

(** ** The translation unit *)

(** The initialisers of lines 23-33. *)
Module RepoInfo.
Definition hostName : string := "host name".
Definition hostUser : string := "user name".
Definition hostOsNV : string := "Ubuntu 14.04".

Definition buildUser : string := "user-name <email@demo.com>".
Definition buildTime : string := "2018-01-30 10:20:30 +0845".

Definition modifyTime : string := "2019-01-30 20:50:59 +8123".

Definition repoHash : string := "615".
Definition repoUrl : string := "svn://addr/app/trunk/mta".
End RepoInfo.

(** A member declaration inside [struct RepoInfo { ... }]. *)
Record member_decl : Type := MemberDecl {
  decl_static : bool;
  decl_const : bool;
  decl_type : string;
  decl_name : string
}.

(** Lines 5-21: the members of [struct RepoInfo], in order. *)
Definition RepoInfo_struct : list member_decl :=
  [ MemberDecl true true "std::string" "hostName";
    MemberDecl true true "std::string" "hostUser";
    MemberDecl true true "std::string" "hostOsNV";
    MemberDecl true true "std::string" "buildUser";
    MemberDecl true true "std::string" "buildTime";
    MemberDecl true true "std::string" "modifyTime";
    MemberDecl true true "std::string" "repoHash";
    MemberDecl true true "std::string" "repoUrl" ].

(** An out-of-class definition [const T Scope::name = "literal";]. *)
Record member_def : Type := MemberDef {
  def_const : bool;
  def_type : string;
  def_scope : string;
  def_name : string;
  def_init : string
}.

(** Lines 23-33: the definitions, in order. *)
Definition RepoInfo_defs : list member_def :=
  [ MemberDef true "std::string" "RepoInfo" "hostName" RepoInfo.hostName;
    MemberDef true "std::string" "RepoInfo" "hostUser" RepoInfo.hostUser;
    MemberDef true "std::string" "RepoInfo" "hostOsNV" RepoInfo.hostOsNV;
    MemberDef true "std::string" "RepoInfo" "buildUser" RepoInfo.buildUser;
    MemberDef true "std::string" "RepoInfo" "buildTime" RepoInfo.buildTime;
    MemberDef true "std::string" "RepoInfo" "modifyTime" RepoInfo.modifyTime;
    MemberDef true "std::string" "RepoInfo" "repoHash" RepoInfo.repoHash;
    MemberDef true "std::string" "RepoInfo" "repoUrl" RepoInfo.repoUrl ].

Definition qualified (scope name : string) : string := scope +:+ "::" +:+ name.

(** Initialisation of the statics of the translation unit, in the order
    of their definitions, before [main] is entered. *)
Fixpoint static_init (defs : list member_def) : M unit :=
  match defs with
  | [] => mret tt
  | d :: defs' =>
      define (qualified (def_scope d) (def_name d)) (def_init d) ;;
      static_init defs'
  end.

(** Lines 35-47. *)
Definition main : M Z :=
  (s ← load "RepoInfo::hostName"; cout_insert s ;; cout_endl) ;;
  (s ← load "RepoInfo::hostUser"; cout_insert s ;; cout_endl) ;;
  (s ← load "RepoInfo::hostOsNV"; cout_insert s ;; cout_endl) ;;
  (s ← load "RepoInfo::buildUser"; cout_insert s ;; cout_endl) ;;
  (s ← load "RepoInfo::buildTime"; cout_insert s ;; cout_endl) ;;
  (s ← load "RepoInfo::modifyTime"; cout_insert s ;; cout_endl) ;;
  (s ← load "RepoInfo::repoHash"; cout_insert s ;; cout_endl) ;;
  (s ← load "RepoInfo::repoUrl"; cout_insert s ;; cout_endl) ;;

  mret 0%Z.

(** A run of the executable: static initialisation, then [main]. *)
Definition program : M Z := static_init RepoInfo_defs ;; main.

(** The state a process starts in: no object initialised yet. *)
Definition startup (os : ostream) : state := State ∅ [] os.

(** A terminal that takes everything. *)
Definition tty : ostream :=
  Ostream EmptyString false false false (λ _ c, Took (String.length c)).

(** A pipe whose reading end is closed: the first write raises SIGPIPE. *)
Definition closed_pipe : ostream :=
  Ostream EmptyString false false false (λ _ _, Signal 0).

(** A file that has room for [room] bytes. *)
Definition short_file (room : nat) : ostream :=
  Ostream EmptyString false false false (λ w _, Took (room - String.length w)).

(** The eight field names of the record, in table order. *)
Definition field_names : list string :=
  [ "hostName"; "hostUser"; "hostOsNV"; "buildUser";
    "buildTime"; "modifyTime"; "repoHash"; "repoUrl" ].

(** The eight constants, in the same order. *)
Definition field_values : list string :=
  [ RepoInfo.hostName; RepoInfo.hostUser; RepoInfo.hostOsNV; RepoInfo.buildUser;
    RepoInfo.buildTime; RepoInfo.modifyTime; RepoInfo.repoHash; RepoInfo.repoUrl ].

(** The text [main] sends to a good stream. *)
Definition printed : string :=
  fold_right (λ v acc, v +:+ newline +:+ acc) EmptyString field_values.

(** The chunks [main] hands to the stream, in order. *)
Definition chunks : list string :=
  flat_map (λ v, [v; newline]) field_values.

(** The statics once initialisation is complete. *)
Definition initialised (st : state) : Prop :=
  Forall (λ d, statics st !! qualified (def_scope d) (def_name d) = Some (def_init d))
         RepoInfo_defs.

(** The state in which [main] is entered when the process starts with
    the stream [os]. *)
Definition booted (os : ostream) : state :=
  match static_init RepoInfo_defs (startup os) with
  | Returned _ st => st
  | _ => startup os
  end.

(** The fields that hold a timestamp. *)
Definition timestamp_fields : list string :=
  [ RepoInfo.buildTime; RepoInfo.modifyTime ].

(** ** Timestamps

    The text form [YYYY-MM-DD HH:MM:SS ±HHMM] the timestamp constants are
    written in, read back field by field. *)

Module Timestamp.

Record t : Type := Make {
  year : nat; month : nat; day : nat;
  hour : nat; minute : nat; second : nat;
  east : bool;            (* the sign of the offset: [+] is [true] *)
  off_hours : nat; off_minutes : nat
}.

Definition digit (c : ascii) : option nat :=
  let n := nat_of_ascii c in
  if (48 <=? n) && (n <=? 57) then Some (n - 48) else None.

(** Exactly [k] decimal digits. *)
Fixpoint number (k acc : nat) (s : string) : option (nat * string) :=
  match k with
  | O => Some (acc, s)
  | S k' =>
      match s with
      | String c s' =>
          match digit c with
          | Some d => number k' (10 * acc + d) s'
          | None => None
          end
      | EmptyString => None
      end
  end.

Definition lit (c : ascii) (s : string) : option string :=
  match s with
  | String c' s' => if decide (c = c') then Some s' else None
  | EmptyString => None
  end.

Definition sign (s : string) : option (bool * string) :=
  match s with
  | String c s' =>
      if decide (c = "+"%char) then Some (true, s')
      else if decide (c = "-"%char) then Some (false, s')
      else None
  | EmptyString => None
  end.

(** The shape alone: widths, separators, a sign, digits. *)
Definition parse (s : string) : option t :=
  '(y, s) ← number 4 0 s; s ← lit "-" s;
  '(mo, s) ← number 2 0 s; s ← lit "-" s;
  '(d, s) ← number 2 0 s; s ← lit " " s;
  '(h, s) ← number 2 0 s; s ← lit ":" s;
  '(mi, s) ← number 2 0 s; s ← lit ":" s;
  '(se, s) ← number 2 0 s; s ← lit " " s;
  '(e, s) ← sign s;
  '(oh, s) ← number 2 0 s;
  '(om, s) ← number 2 0 s;
  match s with
  | EmptyString => Some (Make y mo d h mi se e oh om)
  | String _ _ => None
  end.

Definition leap (y : nat) : bool :=
  ((y mod 4 =? 0) && negb (y mod 100 =? 0)) || (y mod 400 =? 0).

Definition days_in_month (y m : nat) : nat :=
  match m with
  | 1 | 3 | 5 | 7 | 8 | 10 | 12 => 31
  | 4 | 6 | 9 | 11 => 30
  | 2 => if leap y then 29 else 28
  | _ => 0
  end.

(** A date of the calendar and a time of the day. *)
Definition valid_datetime (x : t) : bool :=
  (1 <=? month x) && (month x <=? 12) &&
  (1 <=? day x) && (day x <=? days_in_month (year x) (month x)) &&
  (hour x <=? 23) && (minute x <=? 59) && (second x <=? 59).

Definition valid_off_minutes (x : t) : bool := off_minutes x <=? 59.
Definition valid_off_hours (x : t) : bool := off_hours x <=? 23.

(** An offset of hours and minutes: [HH] an hour, [MM] a minute. *)
Definition valid_offset (x : t) : bool :=
  valid_off_hours x && valid_off_minutes x.

(** The text has the shape and its date and time exist. *)
Definition shaped (s : string) : bool :=
  match parse s with
  | Some x => valid_datetime x && valid_off_minutes x
  | None => false
  end.

(** The text has the shape and ends in a valid hours/minutes offset. *)
Definition conforms (s : string) : bool :=
  match parse s with
  | Some x => valid_datetime x && valid_offset x
  | None => false
  end.

(** The last [n] characters. *)
Definition suffix (n : nat) (s : string) : string :=
  substring (String.length s - n) n s.

(** A sign followed by four digits, as [(sign, HH, MM)]. *)
Definition parse_offset (s : string) : option (bool * nat * nat) :=
  '(e, s) ← sign s;
  '(oh, s) ← number 2 0 s;
  '(om, s) ← number 2 0 s;
  match s with
  | EmptyString => Some (e, oh, om)
  | String _ _ => None
  end.

(** Days since 1970-01-01 of a civil date. *)
Definition days_from_civil (y m d : Z) : Z :=
  let y' := (if m <=? 2 then y - 1 else y)%Z in
  let era := (y' / 400)%Z in
  let yoe := (y' - era * 400)%Z in
  let mp := (if m <=? 2 then m + 9 else m - 3)%Z in
  let doy := ((153 * mp + 2) / 5 + d - 1)%Z in
  let doe := (yoe * 365 + yoe / 4 - yoe / 100 + doy)%Z in
  (era * 146097 + doe - 719468)%Z.

(** Seconds since the epoch of the wall-clock reading, offset ignored. *)
Definition local_seconds (x : t) : Z :=
  (days_from_civil (Z.of_nat (year x)) (Z.of_nat (month x)) (Z.of_nat (day x)) * 86400
   + Z.of_nat (hour x) * 3600 + Z.of_nat (minute x) * 60 + Z.of_nat (second x))%Z.

Definition offset_seconds (x : t) : Z :=
  let mag := (Z.of_nat (off_hours x) * 3600 + Z.of_nat (off_minutes x) * 60)%Z in
  if east x then mag else (- mag)%Z.

(** The instant, in seconds of UTC. *)
Definition utc_seconds (x : t) : Z := (local_seconds x - offset_seconds x)%Z.

(** The wall-clock reading without its offset. *)
Definition datetime (x : t) : list nat :=
  [year x; month x; day x; hour x; minute x; second x].

(** Order of the fields, most significant first. *)
Fixpoint lex_compare (a b : list nat) : comparison :=
  match a, b with
  | [], [] => Eq
  | [], _ :: _ => Lt
  | _ :: _, [] => Gt
  | x :: a', y :: b' =>
      match Nat.compare x y with
      | Eq => lex_compare a' b'
      | c => c
      end
  end.

(** Order of two readings of one clock. *)
Definition chrono (x y : t) : comparison := lex_compare (datetime x) (datetime y).

Definition digit_char (d : nat) : ascii := ascii_of_nat (48 + d).

Definition pad2 (n : nat) : string :=
  String (digit_char (n / 10)) (String (digit_char (n mod 10)) EmptyString).

Definition pad4 (n : nat) : string := pad2 (n / 100) +:+ pad2 (n mod 100).

(** Every field of the date and the time fits its width. *)
Definition in_range (x : t) : bool :=
  (year x <? 100 * 100) && (month x <? 100) && (day x <? 100) &&
  (hour x <? 100) && (minute x <? 100) && (second x <? 100).

(** Modelled from the spec: the text [YYYY-MM-DD HH:MM:SS ±HHMM] of a
    timestamp, as the generator of section 4.1 writes it. *)
Definition format (x : t) : string :=
  pad4 (year x) +:+ "-" +:+ pad2 (month x) +:+ "-" +:+ pad2 (day x) +:+ " " +:+
  pad2 (hour x) +:+ ":" +:+ pad2 (minute x) +:+ ":" +:+ pad2 (second x) +:+ " " +:+
  (if east x then "+" else "-") +:+ pad2 (off_hours x) +:+ pad2 (off_minutes x).

(** Modelled from the spec: the civil date of a day counted from
    1970-01-01, the inverse of [days_from_civil]. *)
Definition civil_from_days (z : Z) : Z * Z * Z :=
  let z := (z + 719468)%Z in
  let era := (z / 146097)%Z in
  let doe := (z - era * 146097)%Z in
  let yoe := ((doe - doe / 1460 + doe / 36524 - doe / 146096) / 365)%Z in
  let y := (yoe + era * 400)%Z in
  let doy := (doe - (365 * yoe + yoe / 4 - yoe / 100))%Z in
  let mp := ((5 * doy + 2) / 153)%Z in
  let d := (doy - (153 * mp + 2) / 5 + 1)%Z in
  let m := (if mp <? 10 then mp + 3 else mp - 9)%Z in
  ((if m <=? 2 then y + 1 else y)%Z, m, d).

(** Days from the first of March of the year 0000 to the first of March
    of a year. *)
Definition march_days (y : Z) : Z := (365 * y + y / 4 - y / 100 + y / 400)%Z.

(** Modelled from the spec: an offset from UTC, as its sign, hours and
    minutes, in seconds. *)
Definition zone_seconds (zone : bool * nat * nat) : Z :=
  let '(e, oh, om) := zone in
  let mag := (Z.of_nat oh * 3600 + Z.of_nat om * 60)%Z in
  if e then mag else (- mag)%Z.

(** Modelled from the spec: the wall-clock reading, at an offset from
    UTC, of the instant [s] seconds after 1970-01-01T00:00:00Z. *)
Definition at_offset (s : Z) (zone : bool * nat * nat) : t :=
  let local := (s + zone_seconds zone)%Z in
  let days := (local / 86400)%Z in
  let sod := (local mod 86400)%Z in
  let '(y, m, d) := civil_from_days days in
  Make (Z.to_nat y) (Z.to_nat m) (Z.to_nat d)
       (Z.to_nat (sod / 3600)) (Z.to_nat (sod mod 3600 / 60)) (Z.to_nat (sod mod 60))
       (fst (fst zone)) (snd (fst zone)) (snd zone).

(** The first second of the year 0000 and the first second after the
    year 9999, in wall-clock seconds: the years the text format has
    room for. *)
Definition era_start : Z := (-62167219200)%Z.
Definition era_end : Z := 253402300800%Z.

(** The wall-clock fields as one number, [YYYYMMDDHHMMSS]. *)
Definition stamp (x : t) : Z :=
  (((((Z.of_nat (year x) * 100 + Z.of_nat (month x)) * 100 + Z.of_nat (day x)) * 100
     + Z.of_nat (hour x)) * 100 + Z.of_nat (minute x)) * 100 + Z.of_nat (second x))%Z.

End Timestamp.

(** ** The generator *)

Module Generator.

(** Modelled from the spec: the Metadata Snapshot Generator
    ([scripts/sync-repo-info], named by the comment on line 4), which is
    not among the sources; its operations follow sections 3, 4.1 and 7
    of the specification. *)
Record BuildMetadataRecord : Type := Record_ {
  hostName : string; hostUser : string; hostOsNV : string;
  buildUser : string; buildTime : string;
  modifyTime : string;
  repoHash : string; repoUrl : string
}.

(** Modelled from the spec: the version-control variants of section 9,
    with a sequential numeric revision for the centralized system and a
    content hash for the distributed one. *)
Inductive Vcs : Type :=
  | Git (commit origin : string)
  | Subversion (revision : nat) (url : string)
  | NoVcs.

(** Modelled from the spec: what the generator can see of the source
    tree at [sourceRoot]. *)
Record SourceTree : Type := Tree {
  vcs : Vcs;
  lastModified : Timestamp.t
}.

(** Modelled from the spec: the build host's environment (section 6);
    [None] is a piece of information that is unavailable.  [zone] is
    the host's time zone: the offset from UTC in force at an instant,
    as its sign, hours and minutes. *)
Record Host : Type := Host_ {
  nodeName : option string;
  accountName : option string;
  osNameVersion : option string;
  identity : string;      (* the configured user identity *)
  zone : Z → bool * nat * nat
}.

(** Modelled from the spec: an instant, in seconds of UTC since
    1970-01-01T00:00:00Z, with the part below one second that the text
    format has no place for. *)
Record Instant : Type := At {
  utc : Z;
  nanos : nat
}.

(** Modelled from the spec: the two conditions of section 7. *)
Inductive Condition : Type :=
  | EnvironmentUnavailable
  | NotAVersionControlledTree.

(** Modelled from the spec: the sentinel placeholder of section 7. *)
Definition placeholder : string := "unknown".

(** Modelled from the spec: [collectHostInfo], with the placeholder for
    whatever is unavailable. *)
Definition collectHostInfo (h : Host) : string * string * string :=
  (default placeholder (nodeName h),
   default placeholder (accountName h),
   default placeholder (osNameVersion h)).

(** Modelled from the spec: the reading of the host's clock at an
    instant, at the offset in force then. *)
Definition reading (h : Host) (i : Instant) : Timestamp.t :=
  Timestamp.at_offset (utc i) (zone h (utc i)).

(** Modelled from the spec: [collectBuildIdentity]. *)
Definition collectBuildIdentity (h : Host) (now : Instant) : string * string :=
  (identity h, Timestamp.format (reading h now)).

(** Modelled from the spec: [collectSourceModifyTime]. *)
Definition collectSourceModifyTime (tree : SourceTree) : string :=
  Timestamp.format (lastModified tree).

(** Modelled from the spec: [collectRepoIdentity]. *)
Definition collectRepoIdentity (tree : SourceTree) : Condition + string * string :=
  match vcs tree with
  | Git commit origin => inr (commit, origin)
  | Subversion revision url => inr (pretty revision, url)
  | NoVcs => inl NotAVersionControlledTree
  end.

(** Modelled from the spec: the record of one build invocation; a
    condition signalled by [collectRepoIdentity] is replaced by the
    placeholder. *)
Definition snapshot (h : Host) (tree : SourceTree) (now : Instant) : BuildMetadataRecord :=
  let '(hn, hu, os) := collectHostInfo h in
  let '(bu, bt) := collectBuildIdentity h now in
  let mt := collectSourceModifyTime tree in
  let '(rh, ru) :=
    match collectRepoIdentity tree with
    | inr found => found
    | inl _ => (placeholder, placeholder)
    end in
  Record_ hn hu os bu bt mt rh ru.

(** Modelled from the spec: the emitted artifact, one scope holding
    the declarations and the definitions of the constants. *)
Record Artifact : Type := Artifact_ {
  scope : string;
  members : list member_decl;
  constants : list member_def
}.

(** Modelled from the spec: one named immutable string constant. *)
Definition constant (name value : string) : member_def :=
  MemberDef true "std::string" "RepoInfo" name value.

(** Modelled from the spec: the serialisation of a record. *)
Definition render (r : BuildMetadataRecord) : Artifact :=
  Artifact_ "RepoInfo"
    (map (MemberDecl true true "std::string") field_names)
    [ constant "hostName" (hostName r); constant "hostUser" (hostUser r);
      constant "hostOsNV" (hostOsNV r); constant "buildUser" (buildUser r);
      constant "buildTime" (buildTime r); constant "modifyTime" (modifyTime r);
      constant "repoHash" (repoHash r); constant "repoUrl" (repoUrl r) ].

(** Modelled from the spec: [emit] writes the artifact at [outputPath],
    over whatever was there. *)
Definition emit (r : BuildMetadataRecord) (outputPath : string)
    (fs : gmap string Artifact) : gmap string Artifact :=
  <[outputPath := render r]> fs.

(** Modelled from the spec: one run of the generator; the first
    component is its exit status. *)
Definition generate (h : Host) (tree : SourceTree) (now : Instant)
    (outputPath : string) (fs : gmap string Artifact) : Z * gmap string Artifact :=
  (0%Z, emit (snapshot h tree now) outputPath fs).

(** Modelled from the spec: [later i j] is [j] being an instant after
    [i]. *)
Definition later (i j : Instant) : Prop :=
  (utc i < utc j)%Z ∨ (utc i = utc j ∧ nanos i < nanos j).

(** The wall-clock time of the instant falls in the years 0000 to 9999,
    which the text format has room for. *)
Definition fits (h : Host) (i : Instant) : Prop :=
  (Timestamp.era_start ≤ utc i + Timestamp.zone_seconds (zone h (utc i))
   < Timestamp.era_end)%Z.

(** The record the sample file holds. *)
Definition sample : BuildMetadataRecord :=
  Record_ RepoInfo.hostName RepoInfo.hostUser RepoInfo.hostOsNV
          RepoInfo.buildUser RepoInfo.buildTime
          RepoInfo.modifyTime
          RepoInfo.repoHash RepoInfo.repoUrl.

(** A host, a tree and instants, as the sample file records them: two
    instants within one second, and one in the next second. *)
Definition sample_host : Host :=
  Host_ (Some RepoInfo.hostName) (Some RepoInfo.hostUser) (Some RepoInfo.hostOsNV)
        RepoInfo.buildUser (λ _, (true, 8, 45)).

Definition sample_tree : SourceTree :=
  Tree (Subversion 615 RepoInfo.repoUrl)
       (Timestamp.Make 2019 1 30 20 50 59 true 81 23).

Definition untracked_tree : SourceTree :=
  Tree NoVcs (Timestamp.Make 2019 1 30 20 50 59 true 81 23).

Definition first_run : Instant := At 1517276130 0.
Definition second_run : Instant := At 1517276130 1.
Definition next_second : Instant := At 1517276131 0.

(** A host whose offset from UTC goes from +0200 to +0100 at
    2018-10-28T01:00:00Z, and the last second before and the first
    second after the change. *)
Definition autumn_host : Host :=
  Host_ None None None RepoInfo.buildUser
        (λ s, if (s <? 1540688400)%Z then (true, 2, 0) else (true, 1, 0)).

Definition before_change : Instant := At 1540688399 0.
Definition after_change : Instant := At 1540688400 0.

End Generator.

(** ** Vocabulary for the behaviour of [main] on any member values *)

(** The key under which a definition's object is stored. *)
Definition qualified_name (d : member_def) : string :=
  qualified (def_scope d) (def_name d).

(** The eight members hold the values [vs], in declaration order. *)
Definition members_hold (st : state) (vs : list string) : Prop :=
  Forall2 (λ n v, statics st !! qualified "RepoInfo" n = Some v) field_names vs.

(** The text of a list of values, each followed by a newline. *)
Definition one_per_line (vs : list string) : string :=
  fold_right (λ v acc, v +:+ newline +:+ acc) EmptyString vs.

(** The chunks of a list of values: each value, then the newline of
    [std::endl]. *)
Definition chunks_of (vs : list string) : list string :=
  flat_map (λ v, [v; newline]) vs.

(** Chunks put end to end. *)
Definition joined (cs : list string) : string :=
  fold_right String.append EmptyString cs.

(** Whether a text holds a newline character. *)
Fixpoint has_newline (s : string) : bool :=
  match s with
  | EmptyString => false
  | String c s' => bool_decide (c = ascii_of_nat 10) || has_newline s'
  end.

(** One statement of [main]: [std::cout << RepoInfo::name << std::endl;] *)
Definition statement (name : string) : M unit :=
  s ← load name; cout_insert s ;; cout_endl.

(** What one statement does to the stream, and what a sequence of them
    does: the next call is made only if the last one came back. *)
Definition line (v : string) (os : ostream) : ostream * fate :=
  match ostream_insert v os with
  | (os1, Alive) => endl os1
  | other => other
  end.

Fixpoint print_lines (vs : list string) (os : ostream) : ostream * fate :=
  match vs with
  | [] => (os, Alive)
  | v :: vs' =>
      match line v os with
      | (os1, Alive) => print_lines vs' os1
      | other => other
      end
  end.

(** The outcome of a computation that did [r] to the stream of [st] and
    then returned [x]. *)
Definition finish {A : Type} (x : A) (st : state) (r : ostream * fate) : outcome A :=
  match r with
  | (os, Alive) => Returned x (State (statics st) (inits st) os)
  | (os, Signalled) => Killed (State (statics st) (inits st) os)
  | (os, Hung) => Blocked (State (statics st) (inits st) os)
  end.

(** The text a device ends up with when it is handed the chunks one
    after the other, up to the first one it does not take whole. *)
Fixpoint delivered (dev : string → string → response) (w : string)
    (cs : list string) : string :=
  match cs with
  | [] => w
  | c :: cs' =>
      if whole (dev w c) c then delivered dev (w +:+ c) cs'
      else w +:+ first_bytes (taken (dev w c)) c
  end.

(** Whether the device takes every chunk whole when it is handed them
    one after the other. *)
Fixpoint all_whole (dev : string → string → response) (w : string)
    (cs : list string) : bool :=
  match cs with
  | [] => true
  | c :: cs' => whole (dev w c) c && all_whole dev (w +:+ c) cs'
  end.

Example sample_snapshot :
  Generator.snapshot Generator.sample_host Generator.sample_tree Generator.first_run
  = Generator.sample.
Proof. by vm_compute. Qed.

Example sample_render :
  Generator.render Generator.sample = Generator.Artifact_ "RepoInfo" RepoInfo_struct RepoInfo_defs.
Proof. reflexivity. Qed.

(** ** Texts *)

Lemma append_cons (x : ascii) (a b : string) : String x a +:+ b = String x (a +:+ b).
Proof. reflexivity. Qed.

Lemma append_empty_l (a : string) : EmptyString +:+ a = a.
Proof. reflexivity. Qed.

Lemma append_assoc (a b c : string) : (a +:+ b) +:+ c = a +:+ (b +:+ c).
Proof.
  induction a as [| x a IH]; [done |].
  by rewrite !append_cons, IH.
Qed.

Lemma append_empty_r (a : string) : a +:+ EmptyString = a.
Proof.
  induction a as [| x a IH]; [done |].
  by rewrite append_cons, IH.
Qed.

Lemma first_bytes_all (s : string) (n : nat) :
  String.length s ≤ n → first_bytes n s = s.
Proof.
  revert n. induction s as [| c s IH]; intros n Hn.
  - by destruct n.
  - destruct n as [| n]; [cbn in Hn; lia |].
    cbn [first_bytes]. f_equal. apply IH. cbn in Hn. lia.
Qed.

Lemma first_bytes_min (s : string) (n : nat) :
  first_bytes (Nat.min n (String.length s)) s = first_bytes n s.
Proof.
  revert n. induction s as [| c s IH]; intros n.
  - by destruct n.
  - destruct n as [| n]; [done |].
    cbn [String.length Nat.min first_bytes]. f_equal. apply IH.
Qed.

Lemma first_bytes_empty (n : nat) : first_bytes n EmptyString = EmptyString.
Proof. by destruct n. Qed.

(** ** The stream functions *)

Lemma good_flags (os : ostream) :
  good os = true → badbit os = false ∧ failbit os = false ∧ eofbit os = false.
Proof.
  unfold good. destruct (badbit os), (failbit os), (eofbit os); cbn; intros; done.
Qed.

Lemma sentry_good (os : ostream) : good os = true → sentry os = (true, os).
Proof. unfold sentry. by intros ->. Qed.

(** On a stream that is not good the sentry fails, and the stream stays
    not good; all the sentry may do is set [failbit]. *)
Lemma sentry_not_good (os : ostream) :
  good os = false →
  fst (sentry os) = false
  ∧ good (snd (sentry os)) = false
  ∧ written (snd (sentry os)) = written os
  ∧ device (snd (sentry os)) = device os
  ∧ badbit (snd (sentry os)) = badbit os
  ∧ sentry (snd (sentry os)) = (false, snd (sentry os)).
Proof.
  intros Hg. unfold sentry. rewrite Hg.
  destruct (badbit os) eqn:Hb; cbn [fst snd].
  - unfold good, setstate_failbit; cbn. rewrite Hb. cbn. done.
  - rewrite Hg, Hb. done.
Qed.

Lemma sentry_badbit (os : ostream) :
  badbit os = true → sentry os = (false, setstate_failbit os).
Proof. intros Hb. unfold sentry, good. by rewrite Hb. Qed.

(** What the insertion of a chunk does on a good stream. *)
Lemma ostream_insert_good (c : string) (os : ostream) :
  good os = true →
  let r := device os (written os) c in
  (whole r c = true →
     ostream_insert c os
     = (Ostream (written os +:+ c) false false false (device os), Alive))
  ∧ (whole r c = false →
     ∃ os', ostream_insert c os = (os', fate_of r)
          ∧ written os' = written os +:+ first_bytes (taken r) c
          ∧ device os' = device os
          ∧ (fate_of r = Alive → good os' = false)).
Proof.
  intros Hg r. pose proof (good_flags os Hg) as (Hb & Hf & He).
  unfold ostream_insert. rewrite (sentry_good os Hg).
  unfold ostream_write, sputn.
  destruct c as [| a c]; [split; [intros _ | discriminate] |].
  { cbn. rewrite append_empty_r. destruct os; cbn in *. by subst. }
  fold r. rewrite Hb, Hf, He. rewrite first_bytes_min.
  destruct r as [n | n | n] eqn:Hr; cbn [whole taken fate_of]; split; try discriminate.
  - intros Hw. apply Nat.leb_le in Hw.
    rewrite Nat.min_r by done. rewrite Nat.eqb_refl.
    by rewrite first_bytes_all by done.
  - intros Hw. apply Nat.leb_gt in Hw.
    rewrite Nat.min_l by lia.
    destruct (Nat.eqb_spec n (String.length (String a c))) as [Heq | _]; [lia |].
    eexists. split; [reflexivity |]. cbn. done.
  - intros _. eexists. split; [reflexivity |]. cbn. done.
  - intros _. eexists. split; [reflexivity |]. cbn. done.
Qed.

(** What [std::endl] does on a good stream. *)
Lemma endl_good (os : ostream) :
  good os = true →
  let r := device os (written os) newline in
  (whole r newline = true →
     endl os = (Ostream (written os +:+ newline) false false false (device os), Alive))
  ∧ (whole r newline = false →
     ∃ os', endl os = (os', fate_of r)
          ∧ written os' = written os +:+ first_bytes (taken r) newline
          ∧ device os' = device os
          ∧ (fate_of r = Alive → good os' = false)).
Proof.
  intros Hg r. pose proof (good_flags os Hg) as (Hb & Hf & He).
  unfold endl, put. rewrite (sentry_good os Hg).
  unfold sputn. change (String (ascii_of_nat 10) EmptyString) with newline.
  unfold newline at 1. fold newline. fold r. rewrite Hb, Hf, He. rewrite first_bytes_min.
  destruct r as [n | n | n] eqn:Hr; cbn [whole taken fate_of newline]; split; try discriminate.
  - intros Hw. apply Nat.leb_le in Hw. change (String.length newline) with 1 in *.
    rewrite Nat.min_r by done. cbn [Nat.eqb].
    rewrite first_bytes_all by done. unfold flush. by rewrite sentry_good.
  - intros Hw. apply Nat.leb_gt in Hw. change (String.length newline) with 1 in *.
    assert (n = 0) as -> by lia. cbn [Nat.min Nat.eqb].
    unfold flush. rewrite sentry_badbit by done.
    eexists. split; [reflexivity |]. cbn. done.
  - intros _. eexists. split; [reflexivity |]. cbn. done.
  - intros _. eexists. split; [reflexivity |]. cbn. done.
Qed.

(** On a stream that is not good neither call writes anything. *)
Lemma ostream_insert_not_good (c : string) (os : ostream) :
  good os = false → ostream_insert c os = (snd (sentry os), Alive).
Proof.
  intros Hg. unfold ostream_insert.
  destruct (sentry_not_good os Hg) as (Hok & _).
  destruct (sentry os) as [ok os1]; cbn in *. by subst.
Qed.

Lemma endl_not_good (os : ostream) :
  good os = false → endl os = (snd (sentry os), Alive).
Proof.
  intros Hg. unfold endl, put, flush.
  destruct (sentry_not_good os Hg) as (Hok & _ & _ & _ & _ & Hagain).
  destruct (sentry os) as [ok os1]; cbn in *. subst. by rewrite Hagain.
Qed.

Lemma line_not_good (v : string) (os : ostream) :
  good os = false → line v os = (snd (sentry os), Alive).
Proof.
  intros Hg. unfold line. rewrite (ostream_insert_not_good v os Hg).
  destruct (sentry_not_good os Hg) as (_ & Hg' & _ & _ & _ & Hagain).
  rewrite (endl_not_good _ Hg'). by rewrite Hagain.
Qed.

(** A sequence of statements on a stream that is not good: the process
    goes on, nothing is written, the stream stays not good. *)
Lemma print_lines_not_good (vs : list string) (os : ostream) :
  good os = false →
  print_lines vs os = (match vs with [] => os | _ :: _ => snd (sentry os) end, Alive).
Proof.
  revert os. induction vs as [| v vs IH]; intros os Hg; [done |].
  cbn [print_lines]. rewrite (line_not_good v os Hg).
  destruct (sentry_not_good os Hg) as (_ & Hg' & _ & _ & _ & Hagain).
  rewrite (IH _ Hg'). destruct vs; [done |]. by rewrite Hagain.
Qed.

(** ** One statement, and a sequence of statements, on the stream *)

Lemma delivered_pair_stop (dev : string → string → response) (w v : string)
    (rest : list string) :
  whole (dev w v) v && whole (dev (w +:+ v) newline) newline = false →
  delivered dev w (v :: newline :: rest) = delivered dev w [v; newline].
Proof.
  cbn [delivered]. destruct (whole (dev w v) v); [| done].
  cbn [andb]. by intros ->.
Qed.

(** One statement on a good stream: either the device takes the value
    and the newline whole, or the stream is left with what the device
    took and is no longer good, or the process does not go on. *)
Lemma line_good (v : string) (os : ostream) :
  good os = true →
  ∃ os' f,
    line v os = (os', f)
    ∧ device os' = device os
    ∧ written os' = delivered (device os) (written os) [v; newline]
    ∧ (calm (device os) → f = Alive)
    ∧ (if whole (device os (written os) v) v
          && whole (device os (written os +:+ v) newline) newline
       then os' = Ostream (written os +:+ v +:+ newline) false false false (device os)
            ∧ f = Alive
       else f = Alive → good os' = false).
Proof.
  intros Hg. unfold line. cbn [delivered].
  destruct (ostream_insert_good v os Hg) as [Hwhole Hshort].
  destruct (whole (device os (written os) v) v) eqn:Hv; cbn [andb].
  - rewrite (Hwhole eq_refl).
    set (os1 := Ostream (written os +:+ v) false false false (device os)).
    assert (Hg1 : good os1 = true) by done.
    destruct (endl_good os1 Hg1) as [Hwhole' Hshort']. cbn [written device os1] in *.
    destruct (whole (device os (written os +:+ v) newline) newline) eqn:Hn.
    + rewrite (Hwhole' eq_refl). eexists _, _. split; [reflexivity |].
      cbn [written device]. rewrite append_assoc. done.
    + destruct (Hshort' eq_refl) as (os' & -> & Hw & Hd & Hng).
      eexists _, _. split; [reflexivity |].
      split; [done |]. split; [done |]. split; [| done].
      intros Hcalm. apply Hcalm.
  - destruct (Hshort eq_refl) as (os1 & -> & Hw & Hd & Hng).
    destruct (fate_of (device os (written os) v)) eqn:Hfate.
    + pose proof (Hng eq_refl) as Hg1.
      rewrite (endl_not_good os1 Hg1).
      destruct (sentry_not_good os1 Hg1) as (_ & Hg2 & Hw2 & Hd2 & _).
      eexists _, _. split; [reflexivity |].
      rewrite Hw2, Hd2. done.
    + eexists _, _. split; [reflexivity |].
      split; [done |]. split; [done |]. split; [| done].
      intros Hcalm. rewrite <- Hfate. apply Hcalm.
    + eexists _, _. split; [reflexivity |].
      split; [done |]. split; [done |]. split; [| done].
      intros Hcalm. rewrite <- Hfate. apply Hcalm.
Qed.

(** A sequence of statements on a good stream: the device ends up with
    the chunks up to the first one it did not take whole; the stream is
    good afterwards only if every chunk went out. *)
Lemma print_lines_good (vs : list string) (os : ostream) :
  good os = true →
  ∃ os' f,
    print_lines vs os = (os', f)
    ∧ device os' = device os
    ∧ written os' = delivered (device os) (written os) (chunks_of vs)
    ∧ (calm (device os) → f = Alive)
    ∧ (f = Alive → good os' = true →
       os' = Ostream (written os +:+ one_per_line vs) false false false (device os)).
Proof.
  revert os. induction vs as [| v vs IH]; intros os Hg.
  - eexists _, _. split; [reflexivity |]. cbn.
    split; [done |]. split; [done |]. split; [done |].
    intros _ _. rewrite append_empty_r.
    pose proof (good_flags os Hg) as (? & ? & ?). destruct os; cbn in *. by subst.
  - cbn [print_lines].
    destruct (line_good v os Hg) as (os1 & f1 & -> & Hd1 & Hw1 & Hcalm1 & Hcase).
    change (chunks_of (v :: vs)) with (v :: newline :: chunks_of vs).
    destruct (whole (device os (written os) v) v
              && whole (device os (written os +:+ v) newline) newline) eqn:Hboth.
    + destruct Hcase as [-> ->].
      set (os1 := Ostream (written os +:+ v +:+ newline) false false false (device os)).
      destruct (IH os1 eq_refl) as (os' & f & -> & Hd & Hw & Hcalm & Hfull).
      cbn [written device os1] in *.
      eexists _, _. split; [reflexivity |].
      split; [done |]. split.
      { rewrite Hw. cbn [delivered]. apply andb_true_iff in Hboth as [-> ->].
        by rewrite append_assoc. }
      split; [done |].
      intros Hf Hg'. rewrite (Hfull Hf Hg'). cbn [one_per_line fold_right].
      by rewrite !append_assoc.
    + rewrite (delivered_pair_stop _ _ _ _ Hboth).
      destruct f1.
      * pose proof (Hcase eq_refl) as Hg1.
        rewrite (print_lines_not_good vs os1 Hg1).
        destruct (sentry_not_good os1 Hg1) as (_ & Hg2 & Hw2 & Hd2 & _).
        eexists _, _. split; [reflexivity |].
        destruct vs; cbn [written device]; (split; [congruence |]);
          (split; [congruence |]); (split; [done |]); intros _ Hgood; congruence.
      * eexists _, _. split; [reflexivity |]. done.
      * eexists _, _. split; [reflexivity |]. done.
Qed.

(** On a good stream whose device takes everything, every line goes
    out. *)
Lemma delivered_accepting (dev : string → string → response) (w : string)
    (cs : list string) :
  accepting dev → delivered dev w cs = w +:+ joined cs.
Proof.
  intros Hacc. revert w. induction cs as [| c cs IH]; intros w.
  - cbn. by rewrite append_empty_r.
  - cbn [delivered joined fold_right]. rewrite Hacc, IH. by rewrite append_assoc.
Qed.

Lemma print_lines_accepting (vs : list string) (os : ostream) :
  good os = true → accepting (device os) →
  print_lines vs os
  = (Ostream (written os +:+ one_per_line vs) false false false (device os), Alive).
Proof.
  revert os. induction vs as [| v vs IH]; intros os Hg Hacc.
  - cbn. rewrite append_empty_r.
    pose proof (good_flags os Hg) as (? & ? & ?). destruct os; cbn in *. by subst.
  - cbn [print_lines].
    destruct (line_good v os Hg) as (os1 & f1 & -> & _ & _ & _ & Hcase).
    rewrite !Hacc in Hcase. cbn [andb] in Hcase. destruct Hcase as [-> ->].
    rewrite IH by done. cbn [written device one_per_line fold_right].
    by rewrite !append_assoc.
Qed.

Lemma joined_chunks_of (vs : list string) : joined (chunks_of vs) = one_per_line vs.
Proof.
  induction vs as [| v vs IH]; [done |].
  unfold joined, chunks_of, one_per_line in *. cbn [flat_map app fold_right].
  by rewrite IH.
Qed.

(** ** Static initialisation and [main] *)

Lemma finish_statics {A : Type} (x : A) (st st' : state) (r : ostream * fate) :
  statics st' = statics st → inits st' = inits st → finish x st' r = finish x st r.
Proof. intros Hs Hi. unfold finish. rewrite Hs, Hi. done. Qed.

(** [main] is its eight statements and [return 0]. *)
Lemma main_statements :
  main = foldr (λ k rest, statement k ;; rest) (mret 0%Z)
               (map (qualified "RepoInfo") field_names).
Proof. reflexivity. Qed.

(** Statements whose objects are initialised do to the stream what
    [print_lines] does with their values. *)
Lemma statements_run (ks vs : list string) (st : state) :
  Forall2 (λ k v, statics st !! k = Some v) ks vs →
  foldr (λ k rest, statement k ;; rest) (mret 0%Z) ks st
  = finish 0%Z st (print_lines vs (cout st)).
Proof.
  intros H. revert st H. revert vs. induction ks as [| k ks IH]; intros vs st H.
  - apply Forall2_nil_inv_l in H as ->. cbn. by destruct st.
  - apply Forall2_cons_inv_l in H as (v & vs' & Hk & H & ->).
    cbn [foldr print_lines]. unfold line.
    set (rest := foldr _ _ ks) in *.
    unfold statement, mbind, M_bind, load. rewrite Hk.
    unfold cout_insert, on_cout at 1.
    destruct (ostream_insert v (cout st)) as [os1 [| |]]; [| done..].
    unfold cout_endl, on_cout. cbn [cout statics inits].
    destruct (endl os1) as [os2 [| |]]; [| done..].
    rewrite (IH vs' (State (statics st) (inits st) os2) H).
    by apply finish_statics.
Qed.

Lemma main_unfold_values (st : state) (vs : list string) :
  members_hold st vs →
  main st = finish 0%Z st (print_lines vs (cout st)).
Proof.
  intros H. rewrite main_statements. apply statements_run.
  unfold members_hold in H. by apply Forall2_fmap_l.
Qed.

Lemma members_hold_length (st : state) (vs : list string) :
  members_hold st vs → length vs = 8.
Proof. intros H. apply Forall2_length in H. by rewrite <- H. Qed.

(** What [initialised] says, one lookup per member. *)
Lemma initialised_members_hold (st : state) :
  initialised st → members_hold st field_values.
Proof.
  unfold initialised, RepoInfo_defs. intros H.
  repeat match goal with
         | H : Forall _ (_ :: _) |- _ => apply Forall_cons in H as [? H]
         end.
  repeat constructor; assumption.
Qed.

Lemma initialised_ext (st st' : state) :
  statics st' = statics st → initialised st → initialised st'.
Proof. unfold initialised. by intros ->. Qed.

Lemma main_unfold (st : state) :
  initialised st →
  main st = finish 0%Z st (print_lines field_values (cout st)).
Proof. intros H. by apply main_unfold_values, initialised_members_hold. Qed.

(** [static_init] is a left fold of insertions over the statics; it
    records each name and does not touch the stream. *)
Lemma static_init_fold (defs : list member_def) (st : state) :
  static_init defs st
  = Returned tt
      (State (foldl (λ m d, <[qualified_name d := def_init d]> m) (statics st) defs)
             (inits st ++ map qualified_name defs)
             (cout st)).
Proof.
  revert st. induction defs as [| d defs IH]; intros st.
  - cbn. rewrite app_nil_r. by destruct st.
  - cbn [static_init]. unfold mbind, M_bind, define.
    rewrite IH. cbn [statics inits cout foldl map].
    by rewrite <- app_assoc.
Qed.

Lemma booted_unfold (os : ostream) :
  booted os
  = State (foldl (λ m d, <[qualified_name d := def_init d]> m) ∅ RepoInfo_defs)
          (map (qualified "RepoInfo") field_names) os.
Proof. unfold booted. by rewrite static_init_fold. Qed.

Lemma booted_initialised (os : ostream) : initialised (booted os).
Proof. rewrite booted_unfold. repeat constructor. Qed.

(** A whole run: the statics are initialised in definition order, then
    [main] runs its statements. *)
Lemma program_run (os : ostream) :
  program (startup os) = finish 0%Z (booted os) (print_lines field_values os).
Proof.
  unfold program, mbind, M_bind. rewrite static_init_fold.
  change (State _ _ (cout (startup os))) with
    (State (foldl (λ m d, <[qualified_name d := def_init d]> m) ∅ RepoInfo_defs)
           (map (qualified "RepoInfo") field_names) os).
  rewrite <- booted_unfold.
  rewrite (main_unfold _ (booted_initialised os)).
  by rewrite booted_unfold.
Qed.

Lemma qualified_names_NoDup : NoDup (map (qualified "RepoInfo") field_names).
Proof. apply (bool_decide_unpack _). by vm_compute. Qed.

Lemma stopped_finish {A : Type} (x : A) (st : state) (r : ostream * fate) :
  stopped (finish x st r) = Some (State (statics st) (inits st) (fst r)).
Proof. by destruct r as [os [| |]]. Qed.

Lemma finish_alive {A : Type} (x : A) (st : state) (os : ostream) (f : fate) :
  f = Alive → finish x st (os, f) = Returned x (State (statics st) (inits st) os).
Proof. by intros ->. Qed.

Lemma finish_returned {A : Type} (x y : A) (st st' : state) (r : ostream * fate) :
  finish x st r = Returned y st' →
  y = x ∧ snd r = Alive ∧ st' = State (statics st) (inits st) (fst r).
Proof. destruct r as [os [| |]]; cbn; [| done..]. by intros [= <- <-]. Qed.

(** ** What reaches the device *)

Lemma first_bytes_app (c s : string) (n : nat) :
  first_bytes (String.length c + n) (c +:+ s) = c +:+ first_bytes n s.
Proof.
  induction c as [| a c IH]; [done |].
  cbn [String.length Nat.add]. rewrite !append_cons. cbn [first_bytes]. by rewrite IH.
Qed.

Lemma first_bytes_app_l (c s : string) (n : nat) :
  n ≤ String.length c → first_bytes n (c +:+ s) = first_bytes n c.
Proof.
  revert n. induction c as [| a c IH]; intros n Hn.
  - cbn in Hn. by assert (n = 0) as -> by lia.
  - destruct n as [| n]; [done |].
    rewrite append_cons. cbn [first_bytes]. f_equal. apply IH. cbn in Hn. lia.
Qed.

(** What the device ends up with is the text before and some first
    bytes of the chunks put end to end. *)
Lemma delivered_prefix (dev : string → string → response) (w : string) (cs : list string) :
  ∃ n, delivered dev w cs = w +:+ first_bytes n (joined cs).
Proof.
  revert w. induction cs as [| c cs IH]; intros w.
  - exists 0. cbn. by rewrite append_empty_r.
  - cbn [delivered joined fold_right]. destruct (whole (dev w c) c).
    + destruct (IH (w +:+ c)) as (n & ->).
      exists (String.length c + n). by rewrite first_bytes_app, append_assoc.
    + exists (Nat.min (taken (dev w c)) (String.length c)).
      rewrite first_bytes_app_l by lia. by rewrite first_bytes_min.
Qed.

(** The first chunk the device does not take whole decides what it ends
    up with: every chunk before it, the bytes taken of that one, and
    nothing after. *)
Lemma delivered_first_refusal (dev : string → string → response) (w : string)
    (cs : list string) :
  ∃ k, k ≤ length cs
     ∧ (∀ i c, i < k → cs !! i = Some c →
               whole (dev (w +:+ joined (take i cs)) c) c = true)
     ∧ match cs !! k with
       | Some c =>
           whole (dev (w +:+ joined (take k cs)) c) c = false
           ∧ delivered dev w cs
             = w +:+ joined (take k cs)
                 +:+ first_bytes (taken (dev (w +:+ joined (take k cs)) c)) c
       | None => delivered dev w cs = w +:+ joined cs
       end.
Proof.
  revert w. induction cs as [| c cs IH]; intros w.
  - exists 0. split; [done |]. split; [intros; lia |]. cbn. by rewrite append_empty_r.
  - cbn [delivered]. destruct (whole (dev w c) c) eqn:Hc.
    + destruct (IH (w +:+ c)) as (k & Hk & Hbefore & Hat).
      exists (S k). split; [cbn; lia |]. split.
      * intros i c' Hi Hc'. destruct i as [| i].
        { cbn in Hc'. injection Hc' as <-. cbn. by rewrite append_empty_r. }
        cbn in Hc'. cbn [take joined fold_right]. rewrite <- append_assoc.
        apply Hbefore; [lia | done].
      * cbn [lookup list_lookup take joined fold_right].
        change (list_lookup k cs) with (cs !! k).
        destruct (cs !! k) as [c' |].
        -- destruct Hat as [Hno ->]. rewrite <- !append_assoc in *. done.
        -- rewrite Hat. by rewrite append_assoc.
    + exists 0. split; [cbn; lia |]. split; [intros; lia |].
      cbn. rewrite append_empty_r. done.
Qed.

(** A sequence of statements on any stream: the device is the same one
    afterwards, what it holds is the text before and some first bytes of
    the lines, and the process goes on unless the device stops it. *)
Lemma print_lines_any (vs : list string) (os : ostream) :
  ∃ os' f n,
    print_lines vs os = (os', f)
    ∧ device os' = device os
    ∧ written os' = written os +:+ first_bytes n (one_per_line vs)
    ∧ (calm (device os) → f = Alive).
Proof.
  destruct (good os) eqn:Hg.
  - destruct (print_lines_good vs os Hg) as (os' & f & Hrun & Hd & Hw & Hcalm & _).
    destruct (delivered_prefix (device os) (written os) (chunks_of vs)) as (n & Hn).
    exists os', f, n. rewrite <- joined_chunks_of, <- Hn. done.
  - rewrite (print_lines_not_good vs os Hg).
    destruct (sentry_not_good os Hg) as (_ & _ & Hw & Hd & _).
    eexists _, _, 0. split; [reflexivity |]. cbn [first_bytes].
    rewrite append_empty_r. by destruct vs.
Qed.

Lemma printed_length : String.length printed = 141.
Proof. by vm_compute. Qed.

(** No first part of the text of the sample has an empty line. *)
Lemma printed_prefix_lines (n : nat) :
  Forall (λ l, l ≠ EmptyString) (lines (first_bytes n printed)).
Proof.
  assert (Hall : forallb (λ k, forallb (λ l, negb (String.eqb l EmptyString))
                                 (lines (first_bytes k printed)))
                         (seq 0 142) = true) by (by vm_compute).
  assert (Hk : ∃ k, k < 142 ∧ first_bytes n printed = first_bytes k printed).
  { destruct (le_lt_dec 141 n) as [Hn | Hn].
    - exists 141. split; [lia |].
      rewrite !first_bytes_all by (rewrite printed_length; lia). done.
    - exists n. split; [lia | done]. }
  destruct Hk as (k & Hk & ->).
  rewrite forallb_forall in Hall.
  specialize (Hall k). rewrite forallb_forall in Hall.
  apply Forall_forall. intros l Hl Hempty.
  apply list_elem_of_In in Hl.
  rewrite in_seq in Hall. specialize (Hall ltac:(lia) l Hl).
  subst l. discriminate.
Qed.

(** The statements of [main] never touch the static objects, and when
    they return, the value is [0]. *)
Lemma statements_stopped (ks : list string) (st st' : state) :
  stopped (foldr (λ k rest, statement k ;; rest) (mret 0%Z) ks st) = Some st' →
  statics st' = statics st ∧ inits st' = inits st.
Proof.
  revert st. induction ks as [| k ks IH]; intros st.
  - cbn. by intros [= <-].
  - cbn [foldr]. set (rest := foldr _ _ ks) in *.
    unfold statement, mbind, M_bind, load.
    destruct (statics st !! k) as [v |]; [| done].
    unfold cout_insert, on_cout at 1.
    destruct (ostream_insert v (cout st)) as [os1 [| |]]; cbn [stopped];
      [| by intros [= <-]..].
    unfold cout_endl, on_cout. cbn [cout statics inits].
    destruct (endl os1) as [os2 [| |]]; cbn [stopped]; [| by intros [= <-]..].
    intros H. by apply IH in H.
Qed.

Lemma statements_returned (ks : list string) (st st' : state) (r : Z) :
  foldr (λ k rest, statement k ;; rest) (mret 0%Z) ks st = Returned r st' → r = 0%Z.
Proof.
  revert st. induction ks as [| k ks IH]; intros st.
  - cbn. by intros [= <- _].
  - cbn [foldr]. set (rest := foldr _ _ ks) in *.
    unfold statement, mbind, M_bind, load.
    destruct (statics st !! k) as [v |]; [| done].
    unfold cout_insert, on_cout at 1.
    destruct (ostream_insert v (cout st)) as [os1 [| |]]; [| done..].
    unfold cout_endl, on_cout. cbn [cout statics inits].
    destruct (endl os1) as [os2 [| |]]; [| done..].
    apply IH.
Qed.

(** The statics and the initialisation order that [static_init] leaves. *)
Lemma static_init_startup (os : ostream) :
  ∃ m, static_init RepoInfo_defs (startup os)
         = Returned tt (State m (map (qualified "RepoInfo") field_names) os)
     ∧ dom m = list_to_set (map (qualified "RepoInfo") field_names)
     ∧ size m = 8
     ∧ Forall (λ d, m !! qualified (def_scope d) (def_name d) = Some (def_init d))
              RepoInfo_defs.
Proof.
  exists (foldl (λ m d, <[qualified (def_scope d) (def_name d) := def_init d]> m)
                ∅ RepoInfo_defs).
  split; [reflexivity |].
  split.
  { cbn [foldl RepoInfo_defs def_scope def_name def_init map field_names list_to_set].
    rewrite !dom_insert_L, dom_empty_L.
    apply set_eq. intros k.
    rewrite !elem_of_union, !elem_of_singleton, elem_of_empty. tauto. }
  split; [by vm_compute |].
  repeat constructor.
Qed.

(** ** The claims about the sample file *)

(** C1: the translation unit declares exactly eight members in
    [struct RepoInfo], named hostName, hostUser, hostOsNV, buildUser,
    buildTime, modifyTime, repoHash and repoUrl, each a
    [static const std::string]; each has one definition in the scope
    [RepoInfo] with a string initialiser; and after initialisation exactly
    these eight objects exist, each holding its initialiser. *)
Theorem eight_named_constants (os : ostream) :
  map decl_name RepoInfo_struct = field_names
  ∧ length RepoInfo_struct = 8
  ∧ NoDup field_names
  ∧ Forall (λ d, decl_static d = true ∧ decl_const d = true ∧ decl_type d = "std::string")
           RepoInfo_struct
  ∧ map def_name RepoInfo_defs = map decl_name RepoInfo_struct
  ∧ Forall (λ d, def_scope d = "RepoInfo" ∧ def_type d = "std::string") RepoInfo_defs
  ∧ map def_init RepoInfo_defs = field_values
  ∧ ∃ st, static_init RepoInfo_defs (startup os) = Returned tt st
        ∧ dom (statics st) = list_to_set (map (qualified "RepoInfo") field_names)
        ∧ size (statics st) = 8
        ∧ initialised st.
Proof.
  split; [reflexivity |].
  split; [reflexivity |].
  split; [apply (bool_decide_unpack _); by vm_compute |].
  split; [repeat constructor |].
  split; [reflexivity |].
  split; [repeat constructor |].
  split; [reflexivity |].
  destruct (static_init_startup os) as (m & Hrun & Hdom & Hsize & Hinit).
  eexists. split; [exact Hrun |]. simpl. done.
Qed.

(** C2: entered with its statics initialised and a good stream whose
    device takes what it is given, [main] appends the eight constants to
    the stream, one per line, in the order hostName, hostUser, hostOsNV,
    buildUser, buildTime, modifyTime, repoHash, repoUrl, changes nothing
    else of the state, and returns. *)
Theorem main_prints_fields_in_order (st : state) :
  initialised st →
  good (cout st) = true →
  accepting (device (cout st)) →
  main st = Returned 0%Z
              (State (statics st) (inits st)
                     (Ostream (written (cout st) +:+ printed) false false false
                              (device (cout st))))
  ∧ lines printed = field_values.
Proof.
  intros Hi Hg Hd. split; [| by vm_compute].
  rewrite (main_unfold st Hi).
  by rewrite (print_lines_accepting field_values (cout st) Hg Hd).
Qed.

Lemma main_prints_fields_in_order_witness :
  main (booted tty)
  = Returned 0%Z
      (State (statics (booted tty)) (inits (booted tty))
             (Ostream (EmptyString +:+ printed) false false false
                      (λ _ c, Took (String.length c))))
  ∧ lines printed = field_values.
Proof.
  apply (main_prints_fields_in_order (booted tty)).
  - repeat constructor.
  - reflexivity.
  - intros w [| a c]; [reflexivity |]. apply Nat.leb_refl.
Defined.

(** C4: every member is declared and defined [const]; a run, however
    it ends, initialises each of the eight objects once, in definition
    order, and leaves each holding its initialiser; and [main], from any
    state and however it stops, leaves every static object and the
    initialisation record as they were. *)
Theorem statics_set_once_never_mutated (os : ostream) (st st' : state) :
  stopped (main st) = Some st' →
  (statics st' = statics st ∧ inits st' = inits st)
  ∧ Forall (λ d, decl_const d = true) RepoInfo_struct
  ∧ Forall (λ d, def_const d = true) RepoInfo_defs
  ∧ ∃ fin, stopped (program (startup os)) = Some fin
         ∧ inits fin = map (qualified "RepoInfo") field_names
         ∧ NoDup (inits fin)
         ∧ initialised fin
         ∧ (calm (device os) → program (startup os) = Returned 0%Z fin).
Proof.
  intros Hmain.
  split; [rewrite main_statements in Hmain; by apply statements_stopped in Hmain |].
  split; [repeat constructor |].
  split; [repeat constructor |].
  rewrite program_run.
  destruct (print_lines_any field_values os) as (os' & f & n & Hrun & _ & _ & Hcalm).
  rewrite Hrun. eexists. split; [apply stopped_finish |].
  rewrite booted_unfold. cbn [statics inits fst].
  split; [reflexivity |].
  split; [apply qualified_names_NoDup |].
  split; [repeat constructor |].
  intros Hc. by rewrite (finish_alive _ _ _ _ (Hcalm Hc)).
Qed.

Lemma statics_set_once_never_mutated_witness :
  statics (State (statics (booted closed_pipe)) (inits (booted closed_pipe)) closed_pipe)
  = statics (booted closed_pipe)
  ∧ inits (State (statics (booted closed_pipe)) (inits (booted closed_pipe)) closed_pipe)
    = inits (booted closed_pipe).
Proof.
  apply (statics_set_once_never_mutated tty (booted closed_pipe)
           (State (statics (booted closed_pipe)) (inits (booted closed_pipe)) closed_pipe)).
  rewrite (main_unfold _ (booted_initialised closed_pipe)).
  reflexivity.
Defined.

(** C5: [repoHash] is declared a [std::string]; the sample stores the
    revision number 615 as its decimal text; and the object takes any
    string, a decimal revision as well as a content hash. *)
Theorem repoHash_free_form (v : string) (n : nat) (st : state) :
  decl_type <$> List.find (λ d, bool_decide (decl_name d = "repoHash")) RepoInfo_struct
    = Some "std::string"
  ∧ RepoInfo.repoHash = pretty 615
  ∧ (define "RepoInfo::repoHash" v ;; load "RepoInfo::repoHash") st
    = Returned v (State (<["RepoInfo::repoHash" := v]> (statics st))
                        (inits st ++ ["RepoInfo::repoHash"]) (cout st))
  ∧ (∃ st', (define "RepoInfo::repoHash" (pretty n) ;; load "RepoInfo::repoHash") st
            = Returned (pretty n) st')
  ∧ (∃ st', (define "RepoInfo::repoHash" "2fd4e1c67a2d28fced849ee1bb76e7391b93eb12" ;;
             load "RepoInfo::repoHash") st
            = Returned "2fd4e1c67a2d28fced849ee1bb76e7391b93eb12" st').
Proof.
  assert (Hany : ∀ x, (define "RepoInfo::repoHash" x ;; load "RepoInfo::repoHash") st
      = Returned x (State (<["RepoInfo::repoHash" := x]> (statics st))
                          (inits st ++ ["RepoInfo::repoHash"]) (cout st))).
  { intros x. unfold mbind, M_bind, define, load. simpl.
    by rewrite lookup_insert_eq. }
  split; [reflexivity |].
  split; [by vm_compute |].
  split; [apply Hany |].
  split; eexists; apply Hany.
Qed.




(** C9: none of the eight constants is the empty string, and whatever
    the state of the stream and whatever the device behind it does, even
    when it takes only part of the output or ends the process, no line
    of the text a run leaves on a stream that started empty is empty. *)
Theorem no_empty_constant_no_empty_line
    (bad fail eof : bool) (dev : string → string → response) :
  Forall (λ v, v ≠ EmptyString) field_values
  ∧ Forall (λ v, (0 < String.length v)%nat) field_values
  ∧ ∃ fin, stopped (program (startup (Ostream EmptyString bad fail eof dev))) = Some fin
         ∧ Forall (λ l, l ≠ EmptyString) (lines (written (cout fin)))
         ∧ (calm dev →
            program (startup (Ostream EmptyString bad fail eof dev)) = Returned 0%Z fin).
Proof.
  split; [repeat constructor; discriminate |].
  split; [repeat constructor; vm_compute; lia |].
  rewrite program_run.
  destruct (print_lines_any field_values (Ostream EmptyString bad fail eof dev))
    as (os' & f & n & -> & _ & Hw & Hcalm).
  eexists. split; [apply stopped_finish |]. cbn [cout fst].
  split.
  - rewrite Hw. cbn [written]. rewrite append_empty_l. apply printed_prefix_lines.
  - intros Hc. by rewrite (finish_alive _ _ _ _ (Hcalm Hc)).
Qed.

(** C10: read as timestamps, [modifyTime] is 2019-01-30 20:50:59 and
    [buildTime] is 2018-01-30 10:20:30, and the former is the later one:
    field by field, as wall-clock seconds, and as instants of UTC once
    each offset is applied. *)
Theorem modifyTime_after_buildTime :
  ∃ b m,
    Timestamp.parse RepoInfo.buildTime = Some b
    ∧ Timestamp.parse RepoInfo.modifyTime = Some m
    ∧ Timestamp.datetime b = [2018; 1; 30; 10; 20; 30]
    ∧ Timestamp.datetime m = [2019; 1; 30; 20; 50; 59]
    ∧ Timestamp.chrono b m = Lt
    ∧ (Timestamp.local_seconds b < Timestamp.local_seconds m)%Z
    ∧ (Timestamp.utc_seconds b < Timestamp.utc_seconds m)%Z.
Proof.
  do 2 eexists.
  split; [by vm_compute |].
  split; [by vm_compute |].
  split; [reflexivity |].
  split; [reflexivity |].
  split; [reflexivity |].
  split; by vm_compute.
Qed.

(** C3, as stated, fails: [modifyTime] ends in [+8123], whose hours part
    is 81, so not every timestamp field ends in a valid hours/minutes
    offset. *)
Lemma modifyTime_offset_not_valid :
  ¬ Forall (λ s, Timestamp.conforms s = true) timestamp_fields.
Proof.
  intros H. apply Forall_cons in H as [_ H]. apply Forall_cons in H as [H _].
  vm_compute in H. discriminate.
Qed.

(** C3, amended: both timestamp fields have the shape
    [YYYY-MM-DD HH:MM:SS ±HHMM], with a date of the calendar, a time of
    the day, and at the end a sign followed by four decimal digits whose
    last two are a minute; in [buildTime] the first two are an hour as
    well. *)
Theorem timestamps_shaped :
  Forall (λ s, Timestamp.shaped s = true
               ∧ String.length s = 25
               ∧ ∃ e hh mm, Timestamp.parse_offset (Timestamp.suffix 5 s) = Some (e, hh, mm)
                            ∧ mm < 60)
         timestamp_fields
  ∧ Timestamp.conforms RepoInfo.buildTime = true
  ∧ Timestamp.parse_offset (Timestamp.suffix 5 RepoInfo.buildTime) = Some (true, 8, 45).
Proof.
  split.
  - repeat constructor; try (by vm_compute).
    + do 3 eexists. split; [by vm_compute | lia].
    + do 3 eexists. split; [by vm_compute | lia].
  - repeat split; by vm_compute.
Qed.


(** ** Order of formatted timestamps *)

Section FormatOrder.
Import Timestamp.

Lemma compare_refl (s : string) : String.compare s s = Eq.
Proof.
  induction s as [| c s IH]; [done |].
  cbn [String.compare]. unfold Ascii.compare. by rewrite N.compare_refl.
Qed.

(** Comparison goes through a prefix of equal length. *)
Lemma compare_append (a a' s s' : string) :
  String.length a = String.length a' →
  String.compare (a +:+ s) (a' +:+ s')
  = match String.compare a a' with
    | Eq => String.compare s s'
    | c => c
    end.
Proof.
  revert a'. induction a as [| x a IH]; intros [| x' a'] Hlen; try discriminate.
  - reflexivity.
  - rewrite !append_cons. cbn [String.compare].
    destruct (Ascii.compare x x'); [| done..].
    apply IH. by injection Hlen.
Qed.

Lemma digit_char_compare (a b : nat) :
  a < 10 → b < 10 → Ascii.compare (digit_char a) (digit_char b) = Nat.compare a b.
Proof.
  intros Ha Hb.
  do 10 (destruct a as [| a];
         [do 10 (destruct b as [| b]; [reflexivity |]); lia |]).
  lia.
Qed.

Lemma pad2_length (n : nat) : String.length (pad2 n) = 2.
Proof. reflexivity. Qed.

Lemma pad4_length (n : nat) : String.length (pad4 n) = 4.
Proof. reflexivity. Qed.

(** Splitting at a base keeps the order. *)
Lemma compare_div_mod (base n m : nat) :
  0 < base →
  match Nat.compare (n / base) (m / base) with
  | Eq => Nat.compare (n mod base) (m mod base)
  | c => c
  end = Nat.compare n m.
Proof.
  intros Hbase.
  pose proof (Nat.div_mod_eq n base) as Hn.
  pose proof (Nat.div_mod_eq m base) as Hm.
  pose proof (Nat.mod_upper_bound n base) as Hn'.
  pose proof (Nat.mod_upper_bound m base) as Hm'.
  destruct (Nat.compare_spec (n / base) (m / base)) as [Hq | Hq | Hq].
  - rewrite Hq in Hn.
    destruct (Nat.compare_spec (n mod base) (m mod base));
      symmetry; [apply Nat.compare_eq_iff | apply Nat.compare_lt_iff | apply Nat.compare_gt_iff];
      lia.
  - symmetry. apply Nat.compare_lt_iff. nia.
  - symmetry. apply Nat.compare_gt_iff. nia.
Qed.

Lemma pad2_compare (n m : nat) :
  n < 100 → m < 100 → String.compare (pad2 n) (pad2 m) = Nat.compare n m.
Proof.
  intros Hn Hm. unfold pad2. cbn [String.compare].
  rewrite !digit_char_compare
    by (try (apply Nat.mod_upper_bound; lia); apply Nat.Div0.div_lt_upper_bound; lia).
  rewrite <- (compare_div_mod 10 n m) by lia.
  destruct (Nat.compare (n / 10) (m / 10)); [| done..].
  by destruct (Nat.compare (n mod 10) (m mod 10)).
Qed.

Lemma pad4_compare (n m : nat) :
  n < 100 * 100 → m < 100 * 100 → String.compare (pad4 n) (pad4 m) = Nat.compare n m.
Proof.
  intros Hn Hm. unfold pad4.
  rewrite compare_append by reflexivity.
  rewrite !pad2_compare
    by (try (apply Nat.mod_upper_bound; lia); apply Nat.Div0.div_lt_upper_bound; lia).
  apply compare_div_mod. lia.
Qed.

(** Two timestamps with one offset, every field within its width:
    their texts compare as their wall-clock fields do. *)
Lemma format_compare (x y : Timestamp.t) :
  in_range x = true → in_range y = true →
  east x = east y → off_hours x = off_hours y → off_minutes x = off_minutes y →
  String.compare (format x) (format y) = chrono x y.
Proof.
  unfold in_range. rewrite !andb_true_iff, !Nat.ltb_lt.
  intros (((((? & ?) & ?) & ?) & ?) & ?) (((((? & ?) & ?) & ?) & ?) & ?).
  intros He Hh Hm. unfold format, chrono, datetime. rewrite He, Hh, Hm.
  cbn [lex_compare].
  rewrite !append_cons, !append_empty_l.
  rewrite compare_append, pad4_compare by done.
  destruct (Nat.compare (year x) (year y)); [| done..].
  cbn [String.compare]. change (Ascii.compare "-" "-") with Eq. cbv beta iota.
  rewrite compare_append, pad2_compare by done.
  destruct (Nat.compare (month x) (month y)); [| done..].
  cbn [String.compare]. change (Ascii.compare "-" "-") with Eq. cbv beta iota.
  rewrite compare_append, pad2_compare by done.
  destruct (Nat.compare (day x) (day y)); [| done..].
  cbn [String.compare]. change (Ascii.compare " " " ") with Eq. cbv beta iota.
  rewrite compare_append, pad2_compare by done.
  destruct (Nat.compare (hour x) (hour y)); [| done..].
  cbn [String.compare]. change (Ascii.compare ":" ":") with Eq. cbv beta iota.
  rewrite compare_append, pad2_compare by done.
  destruct (Nat.compare (minute x) (minute y)); [| done..].
  cbn [String.compare]. change (Ascii.compare ":" ":") with Eq. cbv beta iota.
  rewrite compare_append, pad2_compare by done.
  destruct (Nat.compare (second x) (second y)); [| done..].
  apply compare_refl.
Qed.

Lemma digit_digit_char (d : nat) : d < 10 → digit (digit_char d) = Some d.
Proof.
  intros Hd. do 10 (destruct d as [| d]; [reflexivity |]). lia.
Qed.

(** Reading back two padded digits. *)
Lemma number_pad2 (k acc n : nat) (s : string) :
  n < 100 →
  number (S (S k)) acc (pad2 n +:+ s) = number k (100 * acc + n) s.
Proof.
  intros Hn. unfold pad2. rewrite !append_cons, append_empty_l.
  cbn [number].
  rewrite !digit_digit_char
    by (try (apply Nat.mod_upper_bound; lia); apply Nat.Div0.div_lt_upper_bound; lia).
  f_equal. pose proof (Nat.div_mod_eq n 10). lia.
Qed.

Lemma number_pad4 (n : nat) (s : string) :
  n < 100 * 100 → number 4 0 (pad4 n +:+ s) = Some (n, s).
Proof.
  intros Hn. unfold pad4. rewrite append_assoc.
  rewrite !number_pad2
    by (try (apply Nat.mod_upper_bound; lia); apply Nat.Div0.div_lt_upper_bound; lia).
  cbn [number]. do 2 f_equal. pose proof (Nat.div_mod_eq n 100). lia.
Qed.

Lemma number2_pad2 (n : nat) (s : string) :
  n < 100 → number 2 0 (pad2 n +:+ s) = Some (n, s).
Proof. intros Hn. by rewrite number_pad2 by done. Qed.

Lemma lit_cons (c : ascii) (s : string) : lit c (String c EmptyString +:+ s) = Some s.
Proof. rewrite append_cons, append_empty_l. cbn [lit]. by rewrite decide_True. Qed.

Lemma sign_cons (e : bool) (s : string) :
  sign ((if e then "+" else "-") +:+ s) = Some (e, s).
Proof. by destruct e. Qed.

(** The text of a timestamp reads back as that timestamp. *)
Lemma parse_format (x : Timestamp.t) :
  in_range x = true → off_hours x < 100 → off_minutes x < 100 →
  parse (format x) = Some x.
Proof.
  unfold in_range. rewrite !andb_true_iff, !Nat.ltb_lt.
  intros (((((? & ?) & ?) & ?) & ?) & ?) ? ?.
  unfold parse, format.
  rewrite number_pad4 by done. cbn [mbind option_bind].
  rewrite lit_cons. cbn [mbind option_bind].
  rewrite number2_pad2 by done. cbn [mbind option_bind].
  rewrite lit_cons. cbn [mbind option_bind].
  rewrite number2_pad2 by done. cbn [mbind option_bind].
  rewrite lit_cons. cbn [mbind option_bind].
  rewrite number2_pad2 by done. cbn [mbind option_bind].
  rewrite lit_cons. cbn [mbind option_bind].
  rewrite number2_pad2 by done. cbn [mbind option_bind].
  rewrite lit_cons. cbn [mbind option_bind].
  rewrite number2_pad2 by done. cbn [mbind option_bind].
  rewrite lit_cons. cbn [mbind option_bind].
  rewrite sign_cons. cbn [mbind option_bind].
  rewrite number2_pad2 by done. cbn [mbind option_bind].
  rewrite <- (append_empty_r (pad2 (off_minutes x))).
  rewrite number2_pad2 by done. cbn [mbind option_bind].
  by destruct x.
Qed.

End FormatOrder.

(** ** The calendar *)

Section Calendar.
Import Timestamp.
Local Open Scope Z_scope.

(** The steps of [civil_from_days]: the year counted from March, the day
    of that year, the month counted from March and the day of the
    month. *)
Lemma civil_from_days_steps (z : Z) :
  ∃ y doy mp d,
    civil_from_days z
    = ((if (if mp <? 10 then mp + 3 else mp - 9) <=? 2 then y + 1 else y),
       (if mp <? 10 then mp + 3 else mp - 9), d)
    ∧ march_days y + doy = z + 719468
    ∧ z + 719468 < march_days (y + 1)
    ∧ 0 <= doy <= 365
    ∧ mp = (5 * doy + 2) / 153
    ∧ d = doy - (153 * mp + 2) / 5 + 1.
Proof.
  unfold civil_from_days.
  set (z' := z + 719468).
  set (era := z' / 146097).
  set (doe := z' - era * 146097).
  set (yoe := (doe - doe / 1460 + doe / 36524 - doe / 146096) / 365).
  set (doy := doe - (365 * yoe + yoe / 4 - yoe / 100)).
  set (mp := (5 * doy + 2) / 153).
  exists (yoe + era * 400), doy, mp, (doy - (153 * mp + 2) / 5 + 1).
  assert (Hdoe : 0 <= doe <= 146096).
  { subst doe era. Z.div_mod_to_equations. lia. }
  assert (Hyoe : 0 <= yoe <= 399
                 ∧ 365 * yoe + yoe / 4 - yoe / 100 <= doe
                 ∧ (doe < 365 * (yoe + 1) + (yoe + 1) / 4 - (yoe + 1) / 100
                    ∨ (doe = 146096 ∧ yoe = 399))).
  { subst yoe. clearbody doe. clear -Hdoe. Z.div_mod_to_equations. lia. }
  destruct Hyoe as (Hy & Hlo & Hhi).
  assert (HT : march_days (yoe + era * 400) = era * 146097 + (365 * yoe + yoe / 4 - yoe / 100)).
  { unfold march_days. clearbody yoe era. clear -Hy. Z.div_mod_to_equations. lia. }
  assert (HT' : era * 146097 + doe < march_days (yoe + era * 400 + 1)).
  { unfold march_days. clearbody yoe era doe. clear -Hy Hlo Hhi Hdoe. Z.div_mod_to_equations. lia. }
  split; [reflexivity |].
  split; [rewrite HT; subst doy doe; lia |].
  split; [subst doe; lia |].
  split; [| done].
  subst doy. clearbody yoe doe. clear -Hy Hlo Hhi Hdoe. Z.div_mod_to_equations. lia.
Qed.

(** The month and the day of the month from the day of the year. *)
Lemma month_day_bounds (doy : Z) :
  0 <= doy <= 365 →
  0 <= (5 * doy + 2) / 153 <= 11
  ∧ 1 <= doy - (153 * ((5 * doy + 2) / 153) + 2) / 5 + 1 <= 31.
Proof. intros H. Z.div_mod_to_equations. lia. Qed.

Lemma month_day_mono (doy1 doy2 : Z) :
  0 <= doy1 → doy1 < doy2 → doy2 <= 365 →
  (5 * doy1 + 2) / 153 < (5 * doy2 + 2) / 153
  ∨ ((5 * doy1 + 2) / 153 = (5 * doy2 + 2) / 153
     ∧ doy1 - (153 * ((5 * doy1 + 2) / 153) + 2) / 5 + 1
       < doy2 - (153 * ((5 * doy2 + 2) / 153) + 2) / 5 + 1).
Proof. intros H1 H2 H3. Z.div_mod_to_equations. lia. Qed.

Lemma march_days_mono (y1 y2 : Z) : y1 <= y2 → march_days y1 <= march_days y2.
Proof. unfold march_days. intros H. Z.div_mod_to_equations. lia. Qed.

(** A later day has a later date: as the number [YYYYMMDD], the date
    grows with the day; months and days of the month are those of the
    calendar. *)
Lemma civil_from_days_mono (z1 z2 : Z) :
  z1 < z2 →
  ∃ y1 m1 d1 y2 m2 d2,
    civil_from_days z1 = (y1, m1, d1)
    ∧ civil_from_days z2 = (y2, m2, d2)
    ∧ 1 <= m1 <= 12 ∧ 1 <= d1 <= 31
    ∧ 1 <= m2 <= 12 ∧ 1 <= d2 <= 31
    ∧ y1 * 10000 + m1 * 100 + d1 < y2 * 10000 + m2 * 100 + d2.
Proof.
  intros Hlt.
  destruct (civil_from_days_steps z1) as (y1 & doy1 & mp1 & d1 & -> & Hz1 & Hn1 & Hd1 & Hmp1 & Hdd1).
  destruct (civil_from_days_steps z2) as (y2 & doy2 & mp2 & d2 & -> & Hz2 & Hn2 & Hd2 & Hmp2 & Hdd2).
  pose proof (month_day_bounds doy1 Hd1) as (Hb1 & Hb1').
  pose proof (month_day_bounds doy2 Hd2) as (Hb2 & Hb2').
  rewrite <- Hmp1 in Hb1, Hb1'. rewrite <- Hdd1 in Hb1'.
  rewrite <- Hmp2 in Hb2, Hb2'. rewrite <- Hdd2 in Hb2'.
  assert (Hy : y1 <= y2).
  { destruct (Z_le_gt_dec y1 y2) as [| Hgt]; [done |].
    pose proof (march_days_mono (y2 + 1) y1 ltac:(lia)). lia. }
  assert (Hlex : y1 < y2 ∨ (y1 = y2 ∧ (mp1 < mp2 ∨ (mp1 = mp2 ∧ d1 < d2)))).
  { destruct (Z.eq_dec y1 y2) as [-> | Hne]; [right; split; [done |] | left; lia].
    assert (doy1 < doy2) by lia.
    subst mp1 mp2 d1 d2. apply month_day_mono; lia. }
  eexists _, _, _, _, _, _. split; [reflexivity |]. split; [reflexivity |].
  clear Hz1 Hz2 Hn1 Hn2 Hmp1 Hmp2 Hdd1 Hdd2.
  destruct (Z.ltb_spec mp1 10), (Z.ltb_spec mp2 10);
    repeat match goal with
           | |- context [?a <=? 2] => destruct (Z.leb_spec a 2)
           end; lia.
Qed.

(** The dates of the days from 0000-01-01 to 9999-12-31. *)
Lemma civil_from_days_range (z y m d : Z) :
  -719528 <= z <= 2932896 →
  civil_from_days z = (y, m, d) →
  0 <= y <= 9999 ∧ 1 <= m <= 12 ∧ 1 <= d <= 31.
Proof.
  intros Hz Hc.
  assert (Hlo : civil_from_days (-719528) = (0, 1, 1)) by (by vm_compute).
  assert (Hhi : civil_from_days 2932896 = (9999, 12, 31)) by (by vm_compute).
  assert (Hge : 0 * 10000 + 1 * 100 + 1 <= y * 10000 + m * 100 + d
                ∧ 1 <= m <= 12 ∧ 1 <= d <= 31).
  { destruct (Z.eq_dec z (-719528)) as [-> | Hne].
    - rewrite Hlo in Hc. injection Hc as <- <- <-. lia.
    - destruct (civil_from_days_mono (-719528) z ltac:(lia))
        as (? & ? & ? & ? & ? & ? & H1 & H2 & ? & ? & ? & ? & ?).
      rewrite Hlo in H1. rewrite Hc in H2.
      injection H1 as <- <- <-. injection H2 as <- <- <-. lia. }
  assert (Hle : y * 10000 + m * 100 + d <= 9999 * 10000 + 12 * 100 + 31).
  { destruct (Z.eq_dec z 2932896) as [-> | Hne].
    - rewrite Hhi in Hc. injection Hc as <- <- <-. lia.
    - destruct (civil_from_days_mono z 2932896 ltac:(lia))
        as (? & ? & ? & ? & ? & ? & H1 & H2 & ? & ? & ? & ? & ?).
      rewrite Hhi in H2. rewrite Hc in H1.
      injection H1 as <- <- <-. injection H2 as <- <- <-. lia. }
  lia.
Qed.

(** The reading of an instant whose wall-clock time falls in the years
    0000 to 9999: its fields, and its fields as one number. *)
Lemma at_offset_fields (s : Z) (zone : bool * nat * nat) :
  era_start <= s + zone_seconds zone < era_end →
  ∃ y m d,
    civil_from_days ((s + zone_seconds zone) / 86400) = (y, m, d)
    ∧ 0 <= y <= 9999 ∧ 1 <= m <= 12 ∧ 1 <= d <= 31
    ∧ in_range (at_offset s zone) = true
    ∧ stamp (at_offset s zone)
      = (y * 10000 + m * 100 + d) * 1000000
        + ((s + zone_seconds zone) mod 86400 / 3600) * 10000
        + ((s + zone_seconds zone) mod 86400 mod 3600 / 60) * 100
        + (s + zone_seconds zone) mod 86400 mod 60.
Proof.
  unfold era_start, era_end. intros Hs. unfold at_offset.
  set (local := s + zone_seconds zone) in *.
  destruct (civil_from_days (local / 86400)) as [[y m] d] eqn:Hc.
  assert (Hdays : -719528 <= local / 86400 <= 2932896).
  { Z.div_mod_to_equations. lia. }
  destruct (civil_from_days_range _ _ _ _ Hdays Hc) as (Hy & Hm & Hd).
  exists y, m, d. split; [done |]. split; [done |]. split; [done |]. split; [done |].
  assert (Hsod : 0 <= local mod 86400 < 86400) by (apply Z.mod_pos_bound; lia).
  set (sod := local mod 86400) in *.
  assert (0 <= sod / 3600 < 24) by (Z.div_mod_to_equations; lia).
  assert (0 <= sod mod 3600 / 60 < 60) by (Z.div_mod_to_equations; lia).
  assert (0 <= sod mod 60 < 60) by (Z.div_mod_to_equations; lia).
  split.
  - unfold in_range. cbn [year month day hour minute second].
    repeat (apply andb_true_intro; split); apply Nat.ltb_lt; lia.
  - unfold stamp. cbn [year month day hour minute second].
    rewrite !Z2Nat.id by lia. lia.
Qed.

(** A later wall-clock time reads as a greater number. *)
Lemma at_offset_mono (s1 s2 : Z) (zone1 zone2 : bool * nat * nat) :
  era_start <= s1 + zone_seconds zone1 →
  s1 + zone_seconds zone1 < s2 + zone_seconds zone2 →
  s2 + zone_seconds zone2 < era_end →
  stamp (at_offset s1 zone1) < stamp (at_offset s2 zone2).
Proof.
  intros Hlo Hlt Hhi.
  destruct (at_offset_fields s1 zone1 ltac:(lia))
    as (y1 & m1 & d1 & Hc1 & Hy1 & Hm1 & Hd1 & _ & ->).
  destruct (at_offset_fields s2 zone2 ltac:(lia))
    as (y2 & m2 & d2 & Hc2 & Hy2 & Hm2 & Hd2 & _ & ->).
  set (l1 := s1 + zone_seconds zone1) in *.
  set (l2 := s2 + zone_seconds zone2) in *.
  assert (Hdays : l1 / 86400 <= l2 / 86400) by (Z.div_mod_to_equations; lia).
  assert (Ht1 : 0 <= (l1 mod 86400 / 3600) * 10000 + (l1 mod 86400 mod 3600 / 60) * 100
                     + l1 mod 86400 mod 60 < 1000000)
    by (Z.div_mod_to_equations; lia).
  assert (Ht2 : 0 <= (l2 mod 86400 / 3600) * 10000 + (l2 mod 86400 mod 3600 / 60) * 100
                     + l2 mod 86400 mod 60 < 1000000)
    by (Z.div_mod_to_equations; lia).
  destruct (Z.eq_dec (l1 / 86400) (l2 / 86400)) as [Heq | Hne].
  - rewrite Heq, Hc2 in Hc1. injection Hc1 as <- <- <-.
    assert (l1 mod 86400 < l2 mod 86400) by (Z.div_mod_to_equations; lia).
    clear Ht1 Ht2 Hdays Hlo Hhi Hlt Heq Hc2.
    generalize dependent (l1 mod 86400). generalize dependent (l2 mod 86400).
    intros a b Hab. Z.div_mod_to_equations. lia.
  - destruct (civil_from_days_mono (l1 / 86400) (l2 / 86400) ltac:(lia))
      as (? & ? & ? & ? & ? & ? & H1 & H2 & _ & _ & _ & _ & Hkey).
    rewrite Hc1 in H1. rewrite Hc2 in H2.
    injection H1 as <- <- <-. injection H2 as <- <- <-. lia.
Qed.

(** The order of the fields, most significant first, is the order of
    the fields read as one number. *)
Lemma lex_compare_stamp (x y : Timestamp.t) :
  in_range x = true → in_range y = true →
  lex_compare (datetime x) (datetime y) = (stamp x ?= stamp y).
Proof.
  unfold in_range. rewrite !andb_true_iff, !Nat.ltb_lt.
  intros (((((? & ?) & ?) & ?) & ?) & ?) (((((? & ?) & ?) & ?) & ?) & ?).
  unfold datetime, stamp. cbn [lex_compare].
  repeat match goal with
         | |- context [Nat.compare ?a ?b] =>
             destruct (Nat.compare_spec a b); [subst | |]
         end;
    symmetry;
    first [ apply Z.compare_eq_iff; lia
          | apply Z.compare_lt_iff; lia
          | apply Z.compare_gt_iff; lia ].
Qed.

(** [civil_from_days] undoes [days_from_civil]: the date it gives is
    the date of that day. *)
Lemma days_from_civil_from_days (z y m d : Z) :
  civil_from_days z = (y, m, d) → days_from_civil y m d = z.
Proof.
  destruct (civil_from_days_steps z) as (y0 & doy & mp & d0 & -> & Hz & _ & Hdoy & Hmp & Hd0).
  pose proof (month_day_bounds doy Hdoy) as (Hb & _). rewrite <- Hmp in Hb.
  intros [= <- <- <-]. unfold days_from_civil.
  assert (Hy : (if (if mp <? 10 then mp + 3 else mp - 9) <=? 2
                then (if (if mp <? 10 then mp + 3 else mp - 9) <=? 2 then y0 + 1 else y0) - 1
                else (if (if mp <? 10 then mp + 3 else mp - 9) <=? 2 then y0 + 1 else y0))
               = y0).
  { destruct (Z.ltb_spec mp 10);
      repeat match goal with
             | |- context [?a <=? 2] => destruct (Z.leb_spec a 2)
             end; lia. }
  assert (Hm : (if (if mp <? 10 then mp + 3 else mp - 9) <=? 2
                then (if mp <? 10 then mp + 3 else mp - 9) + 9
                else (if mp <? 10 then mp + 3 else mp - 9) - 3)
               = mp).
  { destruct (Z.ltb_spec mp 10);
      repeat match goal with
             | |- context [?a <=? 2] => destruct (Z.leb_spec a 2)
             end; lia. }
  rewrite Hy, Hm. unfold march_days in Hz.
  clear Hy Hm Hmp. Z.div_mod_to_equations. lia.
Qed.

(** The reading of an instant is the reading of that instant: taken
    back to seconds of UTC it gives the instant. *)
Lemma utc_seconds_at_offset (s : Z) (zone : bool * nat * nat) :
  era_start <= s + zone_seconds zone < era_end →
  utc_seconds (at_offset s zone) = s.
Proof.
  intros Hs.
  destruct (at_offset_fields s zone Hs) as (y & m & d & Hc & Hy & Hm & Hd & _ & _).
  unfold utc_seconds, local_seconds, offset_seconds, at_offset. rewrite Hc.
  cbn [year month day hour minute second east off_hours off_minutes].
  set (local := s + zone_seconds zone) in *.
  assert (Hsod : 0 <= local mod 86400 < 86400) by (apply Z.mod_pos_bound; lia).
  rewrite !Z2Nat.id by (try lia; Z.div_mod_to_equations; lia).
  rewrite (days_from_civil_from_days _ _ _ _ Hc).
  assert (Hz : (if fst (fst zone)
                then Z.of_nat (snd (fst zone)) * 3600 + Z.of_nat (snd zone) * 60
                else - (Z.of_nat (snd (fst zone)) * 3600 + Z.of_nat (snd zone) * 60))
               = zone_seconds zone).
  { by destruct zone as [[[] ?] ?]. }
  rewrite Hz. subst local. Z.div_mod_to_equations. lia.
Qed.

End Calendar.

(** ** The generator's runs *)

Section Runs.
Import Generator.

Lemma snapshot_buildTime (h : Host) (tree : SourceTree) (i : Instant) :
  buildTime (snapshot h tree i) = Timestamp.format (reading h i).
Proof. unfold snapshot; cbn. by destruct (collectRepoIdentity tree) as [? | [? ?]]. Qed.

(** Apart from [buildTime], the record does not depend on the instant. *)
Lemma snapshot_instant (h : Host) (tree : SourceTree) (i j : Instant) :
  snapshot h tree j
  = let r := snapshot h tree i in
    Record_ (hostName r) (hostUser r) (hostOsNV r) (buildUser r)
            (Timestamp.format (reading h j)) (modifyTime r) (repoHash r) (repoUrl r).
Proof. unfold snapshot; cbn. by destruct (collectRepoIdentity tree) as [? | [? ?]]. Qed.

(** At one offset from UTC, the two build times compare as the seconds
    of the two instants. *)
Lemma buildTime_compare (h : Host) (tree : SourceTree) (i j : Instant) :
  fits h i → fits h j → zone h (utc i) = zone h (utc j) →
  String.compare (buildTime (snapshot h tree i)) (buildTime (snapshot h tree j))
  = (utc i ?= utc j)%Z.
Proof.
  unfold fits. intros Hi Hj Hz. rewrite !snapshot_buildTime. unfold reading.
  destruct (at_offset_fields (utc i) (zone h (utc i)) Hi)
    as (? & ? & ? & _ & _ & _ & _ & Hri & _).
  destruct (at_offset_fields (utc j) (zone h (utc j)) Hj)
    as (? & ? & ? & _ & _ & _ & _ & Hrj & _).
  rewrite format_compare; try done.
  - unfold Timestamp.chrono. rewrite lex_compare_stamp by done.
    destruct (Z.compare_spec (utc i) (utc j)) as [Heq | Hlt | Hgt].
    + rewrite Heq. apply Z.compare_refl.
    + apply Z.compare_lt_iff. apply at_offset_mono; [lia | rewrite Hz; lia | lia].
    + apply Z.compare_gt_iff. apply at_offset_mono; [lia | rewrite Hz; lia | lia].
  - unfold Timestamp.at_offset. rewrite Hz.
    by destruct (Timestamp.civil_from_days _) as [[? ?] ?], (Timestamp.civil_from_days _) as [[? ?] ?].
  - unfold Timestamp.at_offset. rewrite Hz.
    by destruct (Timestamp.civil_from_days _) as [[? ?] ?], (Timestamp.civil_from_days _) as [[? ?] ?].
  - unfold Timestamp.at_offset. rewrite Hz.
    by destruct (Timestamp.civil_from_days _) as [[? ?] ?], (Timestamp.civil_from_days _) as [[? ?] ?].
Qed.

(** The build time of a run reads back as the instant of the run, to
    the second. *)
Lemma buildTime_reads_back (h : Host) (tree : SourceTree) (i : Instant) :
  fits h i →
  snd (fst (zone h (utc i))) < 100 → snd (zone h (utc i)) < 100 →
  ∃ x, Timestamp.parse (buildTime (snapshot h tree i)) = Some x
     ∧ Timestamp.utc_seconds x = utc i.
Proof.
  unfold fits. intros Hi Hh Hm. exists (reading h i). split.
  - rewrite snapshot_buildTime. apply parse_format.
    + unfold reading. by destruct (at_offset_fields _ _ Hi) as (? & ? & ? & _ & _ & _ & _ & ? & _).
    + unfold reading, Timestamp.at_offset.
      by destruct (Timestamp.civil_from_days _) as [[? ?] ?].
    + unfold reading, Timestamp.at_offset.
      by destruct (Timestamp.civil_from_days _) as [[? ?] ?].
  - by apply utc_seconds_at_offset.
Qed.

(** When the offset from UTC changes between two runs, the later run
    can carry the smaller build time. *)
Example autumn_buildTime_goes_back :
  later before_change after_change
  ∧ fits autumn_host before_change ∧ fits autumn_host after_change
  ∧ buildTime (snapshot autumn_host sample_tree before_change) = "2018-10-28 02:59:59 +0200"
  ∧ buildTime (snapshot autumn_host sample_tree after_change) = "2018-10-28 02:00:00 +0100"
  ∧ String.ltb (buildTime (snapshot autumn_host sample_tree after_change))
               (buildTime (snapshot autumn_host sample_tree before_change)) = true.
Proof.
  split; [left; by vm_compute |].
  split; [by vm_compute |].
  split; [by vm_compute |].
  repeat split; by vm_compute.
Qed.

End Runs.




(** C7: on a source root that is not under version control,
    [collectRepoIdentity] signals [NotAVersionControlledTree], the record
    carries the placeholder ["unknown"] in [repoHash] and in [repoUrl],
    and the run still writes the artifact and exits with status [0]. *)
Theorem untracked_tree_gets_placeholder
    (h : Generator.Host) (tree : Generator.SourceTree) (now : Generator.Instant)
    (outputPath : string) (fs : gmap string Generator.Artifact) :
  Generator.vcs tree = Generator.NoVcs →
  Generator.collectRepoIdentity tree = inl Generator.NotAVersionControlledTree
  ∧ Generator.repoHash (Generator.snapshot h tree now) = "unknown"
  ∧ Generator.repoUrl (Generator.snapshot h tree now) = "unknown"
  ∧ ∃ fs', Generator.generate h tree now outputPath fs = (0%Z, fs')
         ∧ fs' !! outputPath = Some (Generator.render (Generator.snapshot h tree now))
         ∧ Generator.constant "repoHash" "unknown" ∈ Generator.constants (Generator.render (Generator.snapshot h tree now))
         ∧ Generator.constant "repoUrl" "unknown" ∈ Generator.constants (Generator.render (Generator.snapshot h tree now)).
Proof.
  intros Hvcs.
  assert (Hc : Generator.collectRepoIdentity tree = inl Generator.NotAVersionControlledTree).
  { unfold Generator.collectRepoIdentity. by rewrite Hvcs. }
  assert (Hh : Generator.repoHash (Generator.snapshot h tree now) = "unknown"
             ∧ Generator.repoUrl (Generator.snapshot h tree now) = "unknown").
  { unfold Generator.snapshot; cbn. by rewrite Hc. }
  destruct Hh as [Hh Hu].
  split; [exact Hc |]. split; [exact Hh |]. split; [exact Hu |].
  eexists. split; [reflexivity |].
  split; [apply lookup_insert_eq |].
  unfold Generator.render; cbn [Generator.constants]. rewrite Hh, Hu.
  split.
  - do 6 apply list_elem_of_further. apply list_elem_of_here.
  - do 7 apply list_elem_of_further. apply list_elem_of_here.
Qed.

Lemma untracked_tree_gets_placeholder_witness :
  Generator.collectRepoIdentity Generator.untracked_tree
    = inl Generator.NotAVersionControlledTree
  ∧ Generator.repoHash (Generator.snapshot Generator.sample_host Generator.untracked_tree
                          Generator.first_run) = "unknown"
  ∧ Generator.repoUrl (Generator.snapshot Generator.sample_host Generator.untracked_tree
                         Generator.first_run) = "unknown"
  ∧ ∃ fs', Generator.generate Generator.sample_host Generator.untracked_tree
             Generator.first_run "RepoInfo.cc" ∅ = (0%Z, fs')
         ∧ fs' !! "RepoInfo.cc"
           = Some (Generator.render (Generator.snapshot Generator.sample_host
                                       Generator.untracked_tree Generator.first_run))
         ∧ Generator.constant "repoHash" "unknown"
           ∈ Generator.constants (Generator.render (Generator.snapshot Generator.sample_host
                                       Generator.untracked_tree Generator.first_run))
         ∧ Generator.constant "repoUrl" "unknown"
           ∈ Generator.constants (Generator.render (Generator.snapshot Generator.sample_host
                                       Generator.untracked_tree Generator.first_run)).
Proof.
  apply (untracked_tree_gets_placeholder Generator.sample_host Generator.untracked_tree
           Generator.first_run "RepoInfo.cc" ∅).
  reflexivity.
Defined.



(** ** [main] on any values of the members, and on any stream *)

(** Reading a value without a newline, then the newline, closes one
    line. *)
Lemma lines_from_value (cur v rest : string) :
  has_newline v = false →
  lines_from cur (v +:+ newline +:+ rest) = (cur +:+ v) :: lines_from EmptyString rest.
Proof.
  revert cur. induction v as [| c v IH]; intros cur Hv.
  - rewrite append_empty_l, append_empty_r. unfold newline.
    rewrite append_cons, append_empty_l. cbn [lines_from].
    by rewrite decide_True.
  - cbn [has_newline] in Hv. apply orb_false_iff in Hv as [Hc Hv].
    apply bool_decide_eq_false in Hc.
    rewrite append_cons. cbn [lines_from]. rewrite decide_False by done.
    rewrite (IH _ Hv). f_equal.
    by rewrite append_assoc, append_cons, append_empty_l.
Qed.

Lemma lines_one_per_line (vs : list string) :
  Forall (λ v, has_newline v = false) vs → lines (one_per_line vs) = vs.
Proof.
  unfold lines. induction 1 as [| v vs Hv _ IH]; [done |].
  cbn [one_per_line fold_right]. rewrite (lines_from_value _ _ _ Hv).
  rewrite append_empty_l. f_equal. exact IH.
Qed.

(** X1: whatever values the eight members hold, on a good stream whose
    device takes what it is given [main] appends exactly those values,
    each followed by a newline, in the order hostName, hostUser,
    hostOsNV, buildUser, buildTime, modifyTime, repoHash, repoUrl, keeps
    what the stream already held, and returns [0]. *)
Theorem main_prints_member_values (st : state) (vs : list string) :
  members_hold st vs →
  good (cout st) = true →
  accepting (device (cout st)) →
  main st = Returned 0%Z
              (State (statics st) (inits st)
                     (Ostream (written (cout st) +:+ one_per_line vs) false false false
                              (device (cout st)))).
Proof.
  intros Hm Hg Hd. rewrite (main_unfold_values st vs Hm).
  by rewrite (print_lines_accepting vs (cout st) Hg Hd).
Qed.

Lemma main_prints_member_values_witness :
  main (State (<["RepoInfo::repoHash" := "2fd4e1c6"]> (statics (booted tty))) [] tty)
  = Returned 0%Z
      (State (<["RepoInfo::repoHash" := "2fd4e1c6"]> (statics (booted tty))) []
             (Ostream (EmptyString +:+
                       one_per_line [ RepoInfo.hostName; RepoInfo.hostUser; RepoInfo.hostOsNV;
                                      RepoInfo.buildUser; RepoInfo.buildTime;
                                      RepoInfo.modifyTime; "2fd4e1c6"; RepoInfo.repoUrl ])
                      false false false (λ _ c, Took (String.length c)))).
Proof.
  refine (main_prints_member_values
            (State (<["RepoInfo::repoHash" := "2fd4e1c6"]> (statics (booted tty))) [] tty)
            [ RepoInfo.hostName; RepoInfo.hostUser; RepoInfo.hostOsNV;
              RepoInfo.buildUser; RepoInfo.buildTime;
              RepoInfo.modifyTime; "2fd4e1c6"; RepoInfo.repoUrl ] _ _ _).
  - repeat constructor.
  - reflexivity.
  - intros w [| a c]; [reflexivity |]. apply Nat.leb_refl.
Defined.

(** X2: when no member value holds a newline, the lines of what [main]
    writes to an empty, good stream whose device takes what it is given
    are exactly the eight member values, in order; an empty value shows
    as an empty line. *)
Theorem main_output_lines (st : state) (vs : list string) :
  members_hold st vs →
  Forall (λ v, has_newline v = false) vs →
  written (cout st) = EmptyString →
  good (cout st) = true →
  accepting (device (cout st)) →
  ∃ st', main st = Returned 0%Z st' ∧ lines (written (cout st')) = vs.
Proof.
  intros Hm Hnl Hw Hg Hd. eexists.
  split.
  - rewrite (main_unfold_values st vs Hm).
    by rewrite (print_lines_accepting vs (cout st) Hg Hd).
  - cbn [cout written]. rewrite Hw, append_empty_l.
    by apply lines_one_per_line.
Qed.

Lemma main_output_lines_witness :
  ∃ st',
    main (State (<["RepoInfo::hostUser" := EmptyString]> (statics (booted tty))) [] tty)
    = Returned 0%Z st'
    ∧ lines (written (cout st'))
      = [ RepoInfo.hostName; EmptyString; RepoInfo.hostOsNV; RepoInfo.buildUser;
          RepoInfo.buildTime; RepoInfo.modifyTime; RepoInfo.repoHash; RepoInfo.repoUrl ].
Proof.
  refine (main_output_lines
           (State (<["RepoInfo::hostUser" := EmptyString]> (statics (booted tty))) [] tty)
           [ RepoInfo.hostName; EmptyString; RepoInfo.hostOsNV; RepoInfo.buildUser;
             RepoInfo.buildTime; RepoInfo.modifyTime; RepoInfo.repoHash; RepoInfo.repoUrl ]
           _ _ _ _ _).
  - repeat constructor.
  - repeat constructor.
  - reflexivity.
  - reflexivity.
  - intros w [| a c]; [reflexivity |]. apply Nat.leb_refl.
Defined.

(** When the device takes every chunk whole, every line goes out, the
    stream stays good and the process goes on. *)
Lemma print_lines_all_whole (vs : list string) (os : ostream) :
  good os = true →
  all_whole (device os) (written os) (chunks_of vs) = true →
  print_lines vs os
  = (Ostream (written os +:+ one_per_line vs) false false false (device os), Alive).
Proof.
  revert os. induction vs as [| v vs IH]; intros os Hg Hall.
  - cbn. rewrite append_empty_r.
    pose proof (good_flags os Hg) as (? & ? & ?). destruct os; cbn in *. by subst.
  - change (chunks_of (v :: vs)) with (v :: newline :: chunks_of vs) in Hall.
    cbn [all_whole] in Hall.
    apply andb_true_iff in Hall as [Hv Hall]. apply andb_true_iff in Hall as [Hn Hall].
    cbn [print_lines].
    destruct (line_good v os Hg) as (os1 & f1 & -> & _ & _ & _ & Hcase).
    rewrite Hv, Hn in Hcase. cbn [andb] in Hcase. destruct Hcase as [-> ->].
    rewrite IH; [| done |].
    + cbn [written device one_per_line fold_right]. by rewrite !append_assoc.
    + cbn [written device]. by rewrite <- append_assoc.
Qed.

Lemma all_whole_intro (dev : string → string → response) (w : string) (cs : list string) :
  (∀ i c, cs !! i = Some c → whole (dev (w +:+ joined (take i cs)) c) c = true) →
  all_whole dev w cs = true.
Proof.
  revert w. induction cs as [| c cs IH]; intros w H; [done |].
  cbn [all_whole]. apply andb_true_iff. split.
  - specialize (H 0 c eq_refl). cbn in H. by rewrite append_empty_r in H.
  - apply IH. intros i c' Hc'. specialize (H (S i) c' Hc').
    cbn [take joined fold_right] in H. by rewrite <- append_assoc in H.
Qed.

(** X3: whatever the device does, when [main] stops on a stream that
    was good (it returns, or a write ends or blocks the process), the
    stream holds the earlier text, then every chunk (value, newline,
    value, newline, ...) before the first one the device did not take
    whole, then the bytes the device took of that one, and nothing
    after it; the static objects and the device are as they were.  When
    the device takes every chunk whole, [main] returns [0] with all
    eight lines written. *)
Theorem main_stops_at_first_refusal (st : state) (vs : list string) :
  members_hold st vs →
  good (cout st) = true →
  ∃ fin k,
    stopped (main st) = Some fin
    ∧ statics fin = statics st
    ∧ inits fin = inits st
    ∧ device (cout fin) = device (cout st)
    ∧ k ≤ length (chunks_of vs)
    ∧ (∀ i c, i < k → chunks_of vs !! i = Some c →
         whole (device (cout st)
                  (written (cout st) +:+ joined (take i (chunks_of vs))) c) c = true)
    ∧ match chunks_of vs !! k with
      | Some c =>
          let r := device (cout st)
                     (written (cout st) +:+ joined (take k (chunks_of vs))) c in
          whole r c = false
          ∧ written (cout fin)
            = written (cout st) +:+ joined (take k (chunks_of vs))
                +:+ first_bytes (taken r) c
      | None =>
          written (cout fin) = written (cout st) +:+ one_per_line vs
          ∧ main st = Returned 0%Z fin
          ∧ good (cout fin) = true
      end.
Proof.
  intros Hm Hg. rewrite (main_unfold_values st vs Hm).
  destruct (print_lines_good vs (cout st) Hg) as (os' & f & Hrun & Hd & Hw & _ & _).
  destruct (delivered_first_refusal (device (cout st)) (written (cout st)) (chunks_of vs))
    as (k & Hk & Hbefore & Hat).
  destruct (chunks_of vs !! k) as [c |] eqn:Hc.
  - rewrite Hrun. eexists _, k. split; [apply stopped_finish |].
    cbn [statics inits cout fst].
    do 3 (split; [done |]). split; [done |]. split; [done |].
    rewrite Hc. destruct Hat as [Hno Hat]. split; [done |]. by rewrite Hw, Hat.
  - assert (Hall : all_whole (device (cout st)) (written (cout st)) (chunks_of vs) = true).
    { apply all_whole_intro. intros i c Hi. apply Hbefore; [| done].
      apply lookup_lt_Some in Hi. apply lookup_ge_None in Hc. lia. }
    rewrite (print_lines_all_whole vs (cout st) Hg Hall).
    eexists _, k. split; [reflexivity |].
    cbn [statics inits cout written device].
    do 3 (split; [done |]). split; [done |]. split; [done |].
    rewrite Hc. done.
Qed.

Lemma main_stops_at_first_refusal_witness :
  ∃ fin k,
    stopped (main (booted (short_file 12))) = Some fin
    ∧ statics fin = statics (booted (short_file 12))
    ∧ inits fin = inits (booted (short_file 12))
    ∧ device (cout fin) = device (cout (booted (short_file 12)))
    ∧ k ≤ length (chunks_of field_values)
    ∧ (∀ i c, i < k → chunks_of field_values !! i = Some c →
         whole (device (cout (booted (short_file 12)))
                  (written (cout (booted (short_file 12)))
                   +:+ joined (take i (chunks_of field_values))) c) c = true)
    ∧ match chunks_of field_values !! k with
      | Some c =>
          let r := device (cout (booted (short_file 12)))
                     (written (cout (booted (short_file 12)))
                      +:+ joined (take k (chunks_of field_values))) c in
          whole r c = false
          ∧ written (cout fin)
            = written (cout (booted (short_file 12)))
                +:+ joined (take k (chunks_of field_values))
                +:+ first_bytes (taken r) c
      | None =>
          written (cout fin)
          = written (cout (booted (short_file 12))) +:+ one_per_line field_values
          ∧ main (booted (short_file 12)) = Returned 0%Z fin
          ∧ good (cout fin) = true
      end.
Proof.
  apply (main_stops_at_first_refusal (booted (short_file 12)) field_values).
  - repeat constructor.
  - reflexivity.
Defined.

(** X4: entered with a stream that is not good, [main] writes nothing,
    leaves the static objects and the device as they were, and still
    returns [0]; the stream is still not good, and the only change to it
    is that [failbit] is set when [badbit] was. *)
Theorem main_on_failed_stream (st : state) (vs : list string) :
  members_hold st vs →
  good (cout st) = false →
  main st = Returned 0%Z
              (State (statics st) (inits st)
                     (if badbit (cout st) then setstate_failbit (cout st) else cout st))
  ∧ written (if badbit (cout st) then setstate_failbit (cout st) else cout st)
    = written (cout st)
  ∧ good (if badbit (cout st) then setstate_failbit (cout st) else cout st) = false.
Proof.
  intros Hm Hg. rewrite (main_unfold_values st vs Hm).
  rewrite (print_lines_not_good vs (cout st) Hg).
  pose proof (members_hold_length st vs Hm) as Hlen.
  destruct vs as [| v vs]; [discriminate |].
  unfold sentry. rewrite Hg.
  destruct (badbit (cout st)) eqn:Hb; cbn [snd finish].
  - split; [done |]. split; [done |]. unfold good, setstate_failbit; cbn.
    by rewrite Hb.
  - done.
Qed.

Lemma main_on_failed_stream_witness :
  main (booted (Ostream "earlier" true false false (λ _ c, Took (String.length c))))
  = Returned 0%Z
      (State (statics (booted tty)) (inits (booted tty))
             (Ostream "earlier" true true false (λ _ c, Took (String.length c))))
  ∧ written (Ostream "earlier" true true false (λ _ c, Took (String.length c)))
    = "earlier"
  ∧ good (Ostream "earlier" true true false (λ _ c, Took (String.length c))) = false.
Proof.
  apply (main_on_failed_stream
           (booted (Ostream "earlier" true false false (λ _ c, Took (String.length c))))
           field_values).
  - repeat constructor.
  - reflexivity.
Defined.

(** X5: the return value says nothing about the output, the stream
    does: if the stream is good when [main] returns, it was good when
    [main] was entered and every one of the eight lines was written in
    full. *)
Theorem main_good_stream_means_complete (st : state) (vs : list string) (r : Z) (st' : state) :
  members_hold st vs →
  main st = Returned r st' →
  good (cout st') = true →
  good (cout st) = true
  ∧ written (cout st') = written (cout st) +:+ one_per_line vs.
Proof.
  intros Hm Hmain Hgood.
  rewrite (main_unfold_values st vs Hm) in Hmain.
  apply finish_returned in Hmain as (_ & Hf & ->). cbn [cout] in Hgood |- *.
  destruct (good (cout st)) eqn:Hg.
  - split; [done |].
    destruct (print_lines_good vs (cout st) Hg) as (os' & f & Hrun & _ & _ & _ & Hfull).
    rewrite Hrun in Hf, Hgood |- *. cbn [fst snd] in *.
    by rewrite (Hfull Hf Hgood).
  - rewrite (print_lines_not_good vs (cout st) Hg) in Hgood. cbn [fst] in Hgood.
    destruct (sentry_not_good (cout st) Hg) as (_ & Hg' & _).
    destruct vs; congruence.
Qed.

Lemma main_good_stream_means_complete_witness :
  good (cout (booted tty)) = true
  ∧ written (cout (State (statics (booted tty)) (inits (booted tty))
                         (Ostream printed false false false
                                  (λ _ c, Took (String.length c)))))
    = written (cout (booted tty)) +:+ one_per_line field_values.
Proof.
  apply (main_good_stream_means_complete (booted tty) field_values 0%Z
           (State (statics (booted tty)) (inits (booted tty))
                  (Ostream printed false false false (λ _ c, Took (String.length c))))).
  - repeat constructor.
  - rewrite (main_unfold _ (booted_initialised tty)). reflexivity.
  - reflexivity.
Defined.

(** ** Static initialisation of any list of definitions *)

Lemma foldl_insert_other (defs : list member_def) (m : gmap string string) (k : string) :
  k ∉ map qualified_name defs →
  foldl (λ m d, <[qualified_name d := def_init d]> m) m defs !! k = m !! k.
Proof.
  revert m. induction defs as [| d defs IH]; intros m Hk; [done |].
  cbn [foldl map] in *. apply not_elem_of_cons in Hk as [Hne Hk].
  rewrite (IH _ Hk). by apply lookup_insert_ne.
Qed.

Lemma foldl_insert_defined (defs : list member_def) (m : gmap string string) (d : member_def) :
  NoDup (map qualified_name defs) → d ∈ defs →
  foldl (λ m d, <[qualified_name d := def_init d]> m) m defs !! qualified_name d
  = Some (def_init d).
Proof.
  revert m. induction defs as [| e defs IH]; intros m Hnd Hd.
  - by apply elem_of_nil in Hd.
  - cbn [foldl map] in *. apply NoDup_cons in Hnd as [Hfresh Hnd].
    apply elem_of_cons in Hd as [-> | Hd].
    + rewrite (foldl_insert_other _ _ _ Hfresh). apply lookup_insert_eq.
    + by apply IH.
Qed.

(** X6: for any list of definitions with distinct names, run from any
    state, static initialisation leaves every defined object holding
    its own initialiser, leaves every other object as it was, records
    the names in definition order and does not touch the stream. *)
Theorem static_init_defines_each (defs : list member_def) (st : state) :
  NoDup (map qualified_name defs) →
  ∃ st',
    static_init defs st = Returned tt st'
    ∧ (∀ d, d ∈ defs → statics st' !! qualified_name d = Some (def_init d))
    ∧ (∀ k, k ∉ map qualified_name defs → statics st' !! k = statics st !! k)
    ∧ inits st' = inits st ++ map qualified_name defs
    ∧ cout st' = cout st.
Proof.
  intros Hnd. eexists. split; [apply static_init_fold |].
  cbn [statics inits cout].
  split; [intros d Hd; by apply foldl_insert_defined |].
  split; [intros k Hk; by apply foldl_insert_other |].
  done.
Qed.

Lemma static_init_defines_each_witness :
  ∃ st',
    static_init RepoInfo_defs (startup tty) = Returned tt st'
    ∧ (∀ d, d ∈ RepoInfo_defs → statics st' !! qualified_name d = Some (def_init d))
    ∧ (∀ k, k ∉ map qualified_name RepoInfo_defs →
            statics st' !! k = statics (startup tty) !! k)
    ∧ inits st' = inits (startup tty) ++ map qualified_name RepoInfo_defs
    ∧ cout st' = cout (startup tty).
Proof.
  apply (static_init_defines_each RepoInfo_defs (startup tty)).
  apply (bool_decide_unpack _). vm_compute. reflexivity.
Defined.

(** The statics after initialisation do not depend on the order of
    definitions with distinct names. *)
Lemma foldl_insert_perm (defs defs' : list member_def) (m : gmap string string) :
  NoDup (map qualified_name defs) → defs ≡ₚ defs' →
  foldl (λ m d, <[qualified_name d := def_init d]> m) m defs
  = foldl (λ m d, <[qualified_name d := def_init d]> m) m defs'.
Proof.
  intros Hnd Hp.
  assert (Hnd' : NoDup (map qualified_name defs')).
  { by rewrite <- (fmap_Permutation qualified_name _ _ Hp). }
  apply map_eq. intros k.
  destruct (decide (k ∈ map qualified_name defs)) as [Hin | Hout].
  - apply list_elem_of_fmap in Hin as (d & -> & Hd).
    rewrite (foldl_insert_defined defs m d Hnd Hd).
    rewrite (foldl_insert_defined defs' m d Hnd'); [done |].
    by rewrite <- Hp.
  - rewrite (foldl_insert_other defs m k Hout).
    rewrite (foldl_insert_other defs' m k); [done |].
    intros Hin. apply Hout.
    by rewrite (fmap_Permutation qualified_name _ _ Hp).
Qed.

(** X7: the order of the eight definitions does not matter to what the
    program does: with the definitions of lines 23-33 in any order,
    initialisation followed by [main] ends as the program as written
    does, with the same value returned if any, the same static objects
    and the same stream; when no write ends or blocks the process, both
    return [0]. *)
Theorem definition_order_irrelevant (defs : list member_def) (os : ostream) :
  defs ≡ₚ RepoInfo_defs →
  ∃ st' fin,
    stopped ((static_init defs ;; main) (startup os)) = Some st'
    ∧ stopped (program (startup os)) = Some fin
    ∧ value ((static_init defs ;; main) (startup os)) = value (program (startup os))
    ∧ statics st' = statics fin
    ∧ cout st' = cout fin
    ∧ (calm (device os) →
       (static_init defs ;; main) (startup os) = Returned 0%Z st'
       ∧ program (startup os) = Returned 0%Z fin).
Proof.
  intros Hp.
  assert (Hnd : NoDup (map qualified_name defs)).
  { rewrite (fmap_Permutation qualified_name _ _ Hp).
    apply (bool_decide_unpack _). by vm_compute. }
  assert (Hs : foldl (λ m d, <[qualified_name d := def_init d]> m) ∅ defs
               = statics (booted os)).
  { rewrite (foldl_insert_perm defs RepoInfo_defs ∅ Hnd Hp). by rewrite booted_unfold. }
  rewrite program_run.
  unfold mbind at 1 2 3, M_bind at 1 2 3. rewrite static_init_fold.
  cbn [statics inits cout startup]. rewrite Hs.
  rewrite main_unfold;
    [| apply (initialised_ext (booted os)); [reflexivity | apply booted_initialised]].
  cbn [cout].
  destruct (print_lines_any field_values os) as (os' & f & n & Hrun & _ & _ & Hcalm).
  rewrite Hrun. eexists _, _.
  split; [apply stopped_finish |]. split; [apply stopped_finish |].
  cbn [statics cout fst].
  split; [by destruct f |]. split; [done |]. split; [done |].
  intros Hc. rewrite (Hcalm Hc). done.
Qed.

Lemma definition_order_irrelevant_witness :
  ∃ st' fin,
    stopped ((static_init (reverse RepoInfo_defs) ;; main) (startup tty)) = Some st'
    ∧ stopped (program (startup tty)) = Some fin
    ∧ value ((static_init (reverse RepoInfo_defs) ;; main) (startup tty))
      = value (program (startup tty))
    ∧ statics st' = statics fin
    ∧ cout st' = cout fin
    ∧ (calm (device tty) →
       (static_init (reverse RepoInfo_defs) ;; main) (startup tty) = Returned 0%Z st'
       ∧ program (startup tty) = Returned 0%Z fin).
Proof.
  apply (definition_order_irrelevant (reverse RepoInfo_defs) tty).
  apply reverse_Permutation.
Defined.
